(** * Weblate social-auth pipeline steps (weblate/accounts/pipeline.py)

    A shallow embedding of the pipeline steps and of the username
    normaliser, with the properties the specification states about them.

    Python text is a sequence of code points; dictionaries with string keys
    are finite maps; database tables are lists of rows in storage order;
    exceptions are values of [exn]. *)

From Stdlib Require Import ZArith NArith QArith Ascii String List Bool Lia.
From stdpp Require Import base option gmap strings list.

Local Close Scope Q_scope.
Local Open Scope N_scope.

(** ** Python text *)

(** A [unicode]/[str] object: its code points. *)
Definition pystr := list N.

(** An ASCII literal of the source, as text. *)
Definition str (s : string) : pystr :=
  map N_of_ascii (list_ascii_of_string s).

Definition between (lo hi c : N) : bool := (lo <=? c) && (c <=? hi).

(** [unicode.isspace] on one code point: the characters [strip] removes. *)
Definition py_isspace (c : N) : bool :=
  between 9 13 c || between 28 32 c || (c =? 133) || (c =? 160)
  || (c =? 5760) || between 8192 8202 c || (c =? 8232) || (c =? 8233)
  || (c =? 8239) || (c =? 8287) || (c =? 12288).

Fixpoint lstrip_by (P : N -> bool) (s : pystr) : pystr :=
  match s with
  | c :: s' => if P c then lstrip_by P s' else s
  | [] => []
  end.

Definition strip_by (P : N -> bool) (s : pystr) : pystr :=
  rev (lstrip_by P (rev (lstrip_by P s))).

(** [value.strip()] *)
Definition strip (s : pystr) : pystr := strip_by py_isspace s.

(** The module runs on Python 2 and on Python 3 (it imports [six]); a
    unicode pattern compiled without flags reads [\s] differently there. *)
Inductive python := Py2 | Py3.

(** ** The fragment of [re] the module uses *)
Module Re.

Inductive atom :=
| Word            (* \w *)
| Space           (* \s *)
| Chr (c : N).    (* a literal character *)

Inductive node :=
| AtBeginning                                  (* ^ *)
| AtEnd                                        (* $ *)
| In_ (negate : bool) (set : list atom)        (* [...] or [^...] *)
| MaxRepeat (negate : bool) (set : list atom). (* [...]+ *)

Definition pattern := list node.

(** [\w] on an ASCII subject: letters, digits and the underscore. *)
Definition word (c : N) : bool :=
  between 48 57 c || between 65 90 c || (c =? 95) || between 97 122 c.

(** [\s]: blank, tab, newline, vertical tab, form feed and carriage return
    on Python 2; every [isspace] character on Python 3. *)
Definition space (py : python) (c : N) : bool :=
  match py with
  | Py2 => between 9 13 c || (c =? 32)
  | Py3 => py_isspace c
  end.

Definition in_atom (py : python) (c : N) (a : atom) : bool :=
  match a with
  | Word => word c
  | Space => space py c
  | Chr d => c =? d
  end.

Definition in_set (py : python) (negate : bool) (set : list atom) (c : N)
  : bool :=
  xorb negate (existsb (in_atom py c) set).

(** Match [p] at the head of [s]; [bos] tells whether [s] starts at the
    beginning of the subject.  The result is what is left of the subject.
    A repeat is greedy and gives characters back one at a time. *)
Fixpoint match_here (py : python) (p : pattern) (bos : bool) (s : pystr)
  : option pystr :=
  match p with
  | [] => Some s
  | AtBeginning :: p' => if bos then match_here py p' bos s else None
  | AtEnd :: p' =>
      match s with
      | [] => match_here py p' bos s
      | [c] => if c =? 10 then match_here py p' bos s else None
      | _ => None
      end
  | In_ negate set :: p' =>
      match s with
      | c :: s' =>
          if in_set py negate set c then match_here py p' false s' else None
      | [] => None
      end
  | MaxRepeat negate set :: p' =>
      (fix greedy (s : pystr) : option pystr :=
         match s with
         | c :: s' =>
             if in_set py negate set c then
               match greedy s' with
               | Some rest => Some rest
               | None => match_here py p' false s'
               end
             else None
         | [] => None
         end) s
  end.

(** [pattern.match(s)], as a truth value. *)
Definition matches (py : python) (p : pattern) (s : pystr) : bool :=
  match match_here py p true s with
  | Some _ => true
  | None => false
  end.

(** [pattern.sub(repl, s)] from a position on: the leftmost match is
    replaced and the scan goes on behind it.  Neither pattern used with
    [sub] matches the empty string; a match that consumes nothing is
    passed over. *)
Fixpoint sub_from (fuel : nat) (py : python) (p : pattern) (repl : pystr)
    (bos : bool) (s : pystr) : pystr :=
  match fuel with
  | O => s
  | S fuel' =>
      match s with
      | [] => []
      | c :: s' =>
          match match_here py p bos s with
          | Some rest =>
              if (length rest <? length s)%nat
              then repl ++ sub_from fuel' py p repl false rest
              else c :: sub_from fuel' py p repl false s'
          | None => c :: sub_from fuel' py p repl false s'
          end
      end
  end.

Definition sub (py : python) (p : pattern) (repl : pystr) (s : pystr)
  : pystr :=
  sub_from (length s) py p repl true s.

End Re.

(** ** Username normalisation *)

Definition dot : N := 46.
Definition at_sign : N := 64.
Definition plus_sign : N := 43.
Definition hyphen : N := 45.
Definition newline : N := 10.

(** USERNAME_RE = r'^[\w.@+-]+$' *)
Definition USERNAME_MATCHER : Re.pattern :=
  [Re.AtBeginning;
   Re.MaxRepeat false
     [Re.Word; Re.Chr dot; Re.Chr at_sign; Re.Chr plus_sign; Re.Chr hyphen];
   Re.AtEnd].

(** STRIP_MATCHER = re.compile(r'[^\w\s.@+-]') *)
Definition STRIP_MATCHER : Re.pattern :=
  [Re.In_ true
     [Re.Word; Re.Space; Re.Chr dot; Re.Chr at_sign; Re.Chr plus_sign;
      Re.Chr hyphen]].

(** CLEANUP_MATCHER = re.compile(r'[-\s]+') *)
Definition CLEANUP_MATCHER : Re.pattern :=
  [Re.MaxRepeat false [Re.Chr hyphen; Re.Space]].

Definition is_ascii (c : N) : bool := c <? 128.

(** [.encode('ascii', 'ignore')]: the code points that have an ASCII
    encoding, one byte each. *)
Definition encode_ascii_ignore (s : pystr) : list N := List.filter is_ascii s.

(** [.decode('ascii')] of bytes that are all below 128. *)
Definition decode_ascii (b : list N) : pystr := b.

Section Slugify.

(** [unicodedata.normalize('NFKD', _)]: the decomposition tables belong to
    the interpreter's Unicode database. *)
Variable nfkd : pystr -> pystr.
Variable py : python.

Definition to_ascii (value : pystr) : pystr :=
  decode_ascii (encode_ascii_ignore (nfkd value)).

Definition slugify_username (value : pystr) : pystr :=
  let value := to_ascii value in
  if Re.matches py USERNAME_MATCHER value then value
  else
    let value := strip (Re.sub py STRIP_MATCHER [] value) in
    Re.sub py CLEANUP_MATCHER (str "-") value.

(** *** The algorithm in the words of the specification *)

(** The class [[\w.@+-]]. *)
Definition username_char (c : N) : bool :=
  Re.word c || (c =? dot) || (c =? at_sign) || (c =? plus_sign)
  || (c =? hyphen).

(** The class [[\w\s.@+-]]. *)
Definition kept_char (c : N) : bool :=
  Re.word c || Re.space py c || (c =? dot) || (c =? at_sign)
  || (c =? plus_sign) || (c =? hyphen).

(** Whitespace and hyphen characters. *)
Definition run_char (c : N) : bool := (c =? hyphen) || Re.space py c.

(** Every maximal run of [run_char] characters becomes one hyphen. *)
Fixpoint collapse_runs (s : pystr) : pystr :=
  match s with
  | [] => []
  | c :: s' =>
      if run_char c then
        match s' with
        | d :: _ => if run_char d then collapse_runs s'
                    else hyphen :: collapse_runs s'
        | [] => [hyphen]
        end
      else c :: collapse_runs s'
  end.

Definition slugify_username_spec (value : pystr) : pystr :=
  let normalized := List.filter is_ascii (nfkd value) in
  if Re.matches py USERNAME_MATCHER normalized then normalized
  else
    collapse_runs
      (strip_by (Re.space py) (List.filter kept_char normalized)).

End Slugify.

(** ** Values, exceptions and the store *)

(** What an entry of the [details] dictionary holds. *)
Inductive value :=
| VNone
| VStr (s : pystr).

(** Truth value of a Python object. *)
Definition truthy (v : value) : bool :=
  match v with
  | VNone => false
  | VStr [] => false
  | VStr (_ :: _) => true
  end.

Definition pystr_eqb (a b : pystr) : bool := bool_decide (a = b).

Definition value_eqb (a b : value) : bool :=
  match a, b with
  | VNone, VNone => true
  | VStr s, VStr t => pystr_eqb s t
  | _, _ => false
  end.

Record Backend := { name : string }.

(** The exceptions the steps raise.  The translated message of an
    authentication error is left out. *)
Inductive exn :=
| AuthException (backend : Backend)
| AuthStateForbidden (backend : Backend) (what : string)
| AuthAlreadyAssociated (backend : Backend)
| AuthMissingParameter (backend : Backend) (parameter : string)
| InvalidEmail (backend : Backend)
| KeyError (key : string)
| IndexError
| AttributeError
| TypeError
| DoesNotExist
| MultipleObjectsReturned.

(** The error kinds of the specification. *)
Definition LinkExpired (b : Backend) : exn := AuthStateForbidden b "expires".
Definition SessionUserMismatch (b : Backend) : exn := AuthStateForbidden b "user".
Definition MissingEmail (b : Backend) : exn := AuthMissingParameter b "email".

Inductive result (A : Type) :=
| Return (a : A)
| Raise (e : exn).
Arguments Return {A} a.
Arguments Raise {A} e.

Module User.
Record t := {
  pk : Z;
  username : pystr;
  first_name : pystr;
  email : pystr;
  is_authenticated : bool
}.
Definition set_first_name (u : t) (s : pystr) : t :=
  {| pk := pk u; username := username u; first_name := s;
     email := email u; is_authenticated := is_authenticated u |}.
Definition set_email (u : t) (s : pystr) : t :=
  {| pk := pk u; username := username u; first_name := first_name u;
     email := s; is_authenticated := is_authenticated u |}.
End User.

Module UserSocialAuth.
Record t := { id : Z; user_id : Z; provider : string; uid : pystr }.
End UserSocialAuth.

Module VerifiedEmail.
Record t := { social_id : Z; email : pystr }.
Definition set_email (v : t) (s : pystr) : t :=
  {| social_id := social_id v; email := s |}.
End VerifiedEmail.

Module Code.
Record t := { code : pystr; email : pystr; verified : bool }.
End Code.

(** Writes to the store and calls to collaborators, in the order made. *)
Inductive event :=
| VerifiedEmailCreated (row : VerifiedEmail.t)
| VerifiedEmailSaved (row : VerifiedEmail.t)
| CodeDeleted (row : Code.t)
| UserSaved (user : User.t)
| UserChanged (user : User.t)       (* strategy.storage.user.changed(user) *)
| MessageWarning (text : pystr).    (* messages.warning(request, text) *)

(** The tables, each in storage order; a row object remembers its position
    in the table, which stands for its primary key. *)
Record world := {
  auth_user : list User.t;
  usersocialauth : list UserSocialAuth.t;
  verifiedemail : list VerifiedEmail.t;
  codes : list Code.t;
  log : list event
}.

Definition with_auth_user (w : world) (t : list User.t) : world :=
  {| auth_user := t; usersocialauth := usersocialauth w;
     verifiedemail := verifiedemail w; codes := codes w; log := log w |}.
Definition with_verifiedemail (w : world) (t : list VerifiedEmail.t) : world :=
  {| auth_user := auth_user w; usersocialauth := usersocialauth w;
     verifiedemail := t; codes := codes w; log := log w |}.
Definition with_codes (w : world) (t : list Code.t) : world :=
  {| auth_user := auth_user w; usersocialauth := usersocialauth w;
     verifiedemail := verifiedemail w; codes := t; log := log w |}.
Definition logged (w : world) (e : event) : world :=
  {| auth_user := auth_user w; usersocialauth := usersocialauth w;
     verifiedemail := verifiedemail w; codes := codes w;
     log := log w ++ [e] |}.

(** A step runs against the store and returns or raises; what it wrote
    before raising stays written. *)
Definition M (A : Type) : Type := world -> result A * world.

#[global] Instance M_ret : MRet M := fun A a w => (Return a, w).
#[global] Instance M_bind : MBind M := fun A B f m w =>
  match m w with
  | (Return a, w') => f a w'
  | (Raise e, w') => (Raise e, w')
  end.

Definition raise {A : Type} (e : exn) : M A := fun w => (Raise e, w).
Definition lift {A : Type} (r : result A) : M A := fun w => (r, w).
Definition emit (e : event) : M unit := fun w => (Return tt, logged w e).

(** [try: body except DoesNotExist: handler] *)
Definition except_DoesNotExist {A : Type} (body handler : M A) : M A :=
  fun w =>
    match body w with
    | (Raise DoesNotExist, w') => handler w'
    | r => r
    end.

(** [d[k]] *)
Definition getitem {V : Type} (d : gmap string V) (k : string) : result V :=
  match d !! k with
  | Some v => Return v
  | None => Raise (KeyError k)
  end.

(** [k in d] *)
Definition contains_key {V : Type} (d : gmap string V) (k : string) : bool :=
  bool_decide (is_Some (d !! k)).

(** [d.get(k, default)] *)
Definition get_default (d : gmap string value) (k : string) (default : value)
  : value :=
  match d !! k with
  | Some v => v
  | None => default
  end.

(** ** Query sets *)

(** The rows a filter keeps, with their positions. *)
Fixpoint select {A : Type} (P : A -> bool) (i : nat) (rows : list A)
  : list (nat * A) :=
  match rows with
  | [] => []
  | r :: rows' =>
      if P r then (i, r) :: select P (S i) rows' else select P (S i) rows'
  end.

(** [objects.get(...)] *)
Definition objects_get {A : Type} (P : A -> bool) (rows : list A)
  : result (nat * A) :=
  match select P 0 rows with
  | [] => Raise DoesNotExist
  | [r] => Return r
  | _ :: _ :: _ => Raise MultipleObjectsReturned
  end.

(** [queryset[0]] *)
Definition first_row {A : Type} (rows : list A) : result A :=
  match rows with
  | r :: _ => Return r
  | [] => Raise IndexError
  end.

(** [VerifiedEmail.objects.get_or_create(social=social)]; a new row takes
    the field default, the empty string, as its email. *)
Definition VerifiedEmail_get_or_create (social : UserSocialAuth.t)
  : M (nat * VerifiedEmail.t * bool) :=
  fun w =>
    let same r := (VerifiedEmail.social_id r =? UserSocialAuth.id social)%Z in
    match objects_get same (verifiedemail w) with
    | Return r => (Return (r, false), w)
    | Raise DoesNotExist =>
        let row := {| VerifiedEmail.social_id := UserSocialAuth.id social;
                      VerifiedEmail.email := [] |} in
        (Return (length (verifiedemail w), row, true),
         logged (with_verifiedemail w (verifiedemail w ++ [row]))
                (VerifiedEmailCreated row))
    | Raise e => (Raise e, w)
    end.

(** [verified.save()] for the row object at position [i]. *)
Definition VerifiedEmail_save (i : nat) (row : VerifiedEmail.t) : M unit :=
  fun w =>
    (Return tt,
     logged (with_verifiedemail w (<[i := row]> (verifiedemail w)))
            (VerifiedEmailSaved row)).

(** [code.delete()] for the row object at position [i]. *)
Definition Code_delete (i : nat) (row : Code.t) : M unit :=
  fun w =>
    (Return tt, logged (with_codes w (delete i (codes w))) (CodeDeleted row)).

(** [user.save()]: the row with the user's key is overwritten, or the user
    is inserted when there is none. *)
Definition User_save (user : User.t) : M unit :=
  fun w =>
    let same r := (User.pk r =? User.pk user)%Z in
    let table :=
      if existsb same (auth_user w)
      then map (fun r => if same r then user else r) (auth_user w)
      else auth_user w ++ [user] in
    (Return tt, logged (with_auth_user w table) (UserSaved user)).

(** ** The pipeline steps *)

Record email_entry := {
  entry_email : pystr;
  entry_verified : bool;
  entry_primary : bool
}.

(** The loop of [get_github_email] over the entries that are left, [email]
    being the variable the loop assigns. *)
Fixpoint github_email_loop (email : option pystr) (data : list email_entry)
  : option pystr :=
  match data with
  | [] => email
  | entry :: data' =>
      if negb (entry_verified entry) then github_email_loop email data'
      else
        let email := Some (entry_email entry) in
        if entry_primary entry then email else github_email_loop email data'
  end.

Section GitHub.

(** What https://api.github.com/user/emails answers for an access token,
    decoded from JSON. *)
Variable user_emails : pystr -> list email_entry.

Definition get_github_email (access_token : pystr) : option pystr :=
  let data := user_emails access_token in
  github_email_loop None data.

(** What a step hands back to the pipeline. *)
Inductive step_result :=
| Nothing                        (* return None *)
| Update_is_new (is_new : bool)  (* return {'is_new': ...} *)
| Redirect (to : string).        (* return redirect(to) *)

(** The step returns the [details] dictionary, which it updates in
    place, next to its result. *)
Definition require_email (backend : Backend) (details : gmap string value)
    (access_token : pystr) (user : option User.t) (is_new : bool)
  : gmap string value * step_result :=
  let details :=
    if String.eqb (name backend) "github" then
      match get_github_email access_token with
      | Some email => <["email" := VStr email]> details
      | None => details
      end
    else details in
  let has_email :=
    match user with
    | Some u => truthy (VStr (User.email u))
    | None => false
    end in
  if has_email then
    if String.eqb (name backend) "email"
    then (details, Update_is_new true)
    else (details, Nothing)
  else if is_new && negb (truthy (get_default details "email" VNone))
  then (details, Redirect "register")
  else (details, Nothing).

End GitHub.

Section AccountStore.

(** The [iexact] lookup of the database on two non-null texts; the
    case folding is the database's. *)
Variable iexact : pystr -> pystr -> bool.

(** [User.objects.filter(username__iexact=v).exists()]; a [None] value
    turns the lookup into a test for NULL, which no username is. *)
Definition username_iexact_exists (v : value) : M bool :=
  fun w =>
    match v with
    | VNone => (Return false, w)
    | VStr s =>
        (Return (existsb (fun u => iexact (User.username u) s) (auth_user w)),
         w)
    end.

Definition verify_username (backend : Backend) (details : gmap string value)
    (user : option User.t) : M unit :=
  if bool_decide (is_Some user) || negb (contains_key details "username")
  then mret tt
  else
    v ← lift (getitem details "username");
    taken ← username_iexact_exists v;
    if taken : bool
    then (raise (AuthAlreadyAssociated backend) : M unit)
    else mret tt.

End AccountStore.

(** [strategy.storage.code.objects.get(code=..., email=..., verified=True)] *)
Definition Code_objects_get (code : pystr) (email : value) : M (nat * Code.t) :=
  fun w =>
    (objects_get
       (fun c => pystr_eqb (Code.code c) code
                 && value_eqb (VStr (Code.email c)) email
                 && Code.verified c)
       (codes w), w).

(** [data] is what [strategy.request_data()] returns. *)
Definition revoke_mail_code (data : gmap string pystr)
    (details : gmap string value) : M unit :=
  email ← lift (getitem details "email");
  if truthy email && contains_key data "verification_code" then
    except_DoesNotExist
      (verification_code ← lift (getitem data "verification_code");
       '(i, code) ← Code_objects_get verification_code email;
       Code_delete i code)
      (mret tt)
  else mret tt.

Definition Qlt_bool (a b : Q) : bool :=
  match Qcompare a b with
  | Lt => true
  | _ => false
  end.

Definition option_Z_eqb (a b : option Z) : bool :=
  match a, b with
  | Some x, Some y => (x =? y)%Z
  | None, None => true
  | _, _ => false
  end.

(** [now] is what [time.time()] returns when the step runs. *)
Definition ensure_valid (now : Q) (backend : Backend) (user : option User.t)
    (registering_user : option Z) (weblate_action : string)
    (weblate_expires : Z) : result unit :=
  if Qlt_bool (inject_Z weblate_expires) now
  then Raise (AuthStateForbidden backend "expires")
  else if String.eqb weblate_action "reset" then Return tt
  else
    let current_user :=
      match user with
      | Some u => if User.is_authenticated u then Some (User.pk u) else None
      | None => None
      end in
    if negb (option_Z_eqb current_user registering_user)
    then Raise (AuthStateForbidden backend "user")
    else Return tt.

Definition store_email (backend : Backend) (social : UserSocialAuth.t)
    (details : gmap string value) : M unit :=
  match details !! "email" with
  | None | Some VNone => raise (AuthMissingParameter backend "email")
  | Some (VStr email) =>
      '(i, verified, dummy) ← VerifiedEmail_get_or_create social;
      if negb (pystr_eqb (VerifiedEmail.email verified) email)
      then VerifiedEmail_save i (VerifiedEmail.set_email verified email)
      else mret tt
  end.

(** [s.strip()] on what a dictionary entry holds. *)
Definition value_strip (v : value) : result pystr :=
  match v with
  | VStr s => Return (strip s)
  | VNone => Raise AttributeError
  end.

Fixpoint starts_with (prefix s : pystr) : bool :=
  match prefix, s with
  | [], _ => true
  | a :: prefix', b :: s' => (a =? b) && starts_with prefix' s'
  | _ :: _, [] => false
  end.

(** [needle in haystack] on text. *)
Fixpoint contains (needle haystack : pystr) : bool :=
  starts_with needle haystack
  || match haystack with
     | [] => false
     | _ :: haystack' => contains needle haystack'
     end.

(** The name the step derives from the first and the last name. *)
Definition combined_name (details : gmap string value) : result value :=
  let first_name := get_default details "first_name" (VStr []) in
  let last_name := get_default details "last_name" (VStr []) in
  match first_name with
  | VStr (c :: f) =>
      match last_name with
      | VStr l =>
          if negb (contains (c :: f) l)
          then Return (VStr ((c :: f) ++ str " " ++ l))
          else Return first_name
      | VNone => Raise TypeError    (* first_name not in None *)
      end
  | _ => Return last_name
  end.

(** The step returns the [user] object, which it updates in place. *)
Definition user_full_name (details : gmap string value)
    (user : option User.t) : M (option User.t) :=
  match user with
  | Some u =>
      full_name ← lift (value_strip (get_default details "fullname" (VStr [])));
      full_name ←
        (if negb (truthy (VStr full_name))
            && (contains_key details "first_name"
                || contains_key details "last_name")
         then lift (combined_name details)
         else mret (VStr full_name));
      full_name ← lift (value_strip full_name);
      let full_name :=
        if (30 <? length full_name)%nat then take 30 full_name
        else full_name in
      if truthy (VStr full_name)
         && negb (pystr_eqb full_name (User.first_name u))
      then
        let u := User.set_first_name u full_name in
        _ ← emit (UserChanged u);
        mret (Some u)
      else mret (Some u)
  | None => mret None
  end.

(** The query set [VerifiedEmail.objects.filter(social__user=user)
    .exclude(social__in=entries)], evaluated. *)
Definition remaining_verified (entries : list UserSocialAuth.t)
    (user : User.t) (w : world) : list VerifiedEmail.t :=
  List.filter
    (fun v =>
       existsb
         (fun s => (UserSocialAuth.id s =? VerifiedEmail.social_id v)%Z
                   && (UserSocialAuth.user_id s =? User.pk user)%Z)
         (usersocialauth w)
       && negb (existsb
                  (fun s => (UserSocialAuth.id s =? VerifiedEmail.social_id v)%Z)
                  entries))
    (verifiedemail w).

Definition warning_text (address : pystr) : pystr :=
  str "Your email no longer belongs to verified account, it has been changed to "
  ++ address ++ str ".".

(** The step returns the [user] object, which it updates in place. *)
Definition adjust_primary_mail (entries : list UserSocialAuth.t)
    (user : User.t) : M User.t :=
  fun w =>
    let verified := remaining_verified entries user in
    if existsb (fun v => pystr_eqb (VerifiedEmail.email v) (User.email user))
               (verified w)
    then (Return user, w)
    else
      (first ← lift (first_row (verified w));
       let user := User.set_email user (VerifiedEmail.email first) in
       _ ← User_save user;
       _ ← emit (MessageWarning (warning_text (User.email user)));
       mret user) w.

(** ** The statements of the specification, in its words *)

(** The secondary-email choice: the primary verified entry, else the first
    verified one. *)
Definition primary_else_first_verified (data : list email_entry)
  : option pystr :=
  match List.find (fun e => entry_verified e && entry_primary e) data with
  | Some e => Some (entry_email e)
  | None => entry_email <$> List.find entry_verified data
  end.

(** The choice [get_github_email] makes: the primary verified entry, else
    the last verified one. *)
Definition primary_else_last_verified (data : list email_entry)
  : option pystr :=
  match List.find (fun e => entry_verified e && entry_primary e) data with
  | Some e => Some (entry_email e)
  | None => entry_email <$> last (List.filter entry_verified data)
  end.

Definition nonempty (s : pystr) : bool :=
  match s with
  | [] => false
  | _ :: _ => true
  end.

(** The name before its length is cut: the trimmed full name when it is
    not empty, else first and last name put together. *)
Definition preferred_name (fullname first last : pystr) : pystr :=
  if nonempty (strip fullname) then strip fullname
  else if nonempty first then
    if contains first last then first else first ++ str " " ++ last
  else last.

(** The derived name as the specification words it. *)
Definition derived_name_spec (fullname first last : pystr) : pystr :=
  take 30 (preferred_name fullname first last).

(** The derived name with the second trim the step applies. *)
Definition derived_name (fullname first last : pystr) : pystr :=
  take 30 (strip (preferred_name fullname first last)).

(** What the step leaves behind for a derived name [derived]: the first
    name is replaced and the user marked as changed when the name is not
    empty and new, and nothing happens otherwise. *)
Definition full_name_outcome (derived : pystr) (u : User.t) (w : world)
  : result (option User.t) * world :=
  if nonempty derived && negb (pystr_eqb derived (User.first_name u))
  then (Return (Some (User.set_first_name u derived)),
        logged w (UserChanged (User.set_first_name u derived)))
  else (Return (Some u), w).

(** The text of a field of [details] that is absent or holds text. *)
Definition text_field (details : gmap string value) (k : string)
    (s : option pystr) : Prop :=
  details !! k = VStr <$> s.

(** The part of the username pattern behind [^]: the repeat and [$]. *)
Definition username_tail : Re.pattern :=
  [Re.MaxRepeat false
     [Re.Word; Re.Chr dot; Re.Chr at_sign; Re.Chr plus_sign; Re.Chr hyphen];
   Re.AtEnd].

(** The id of the user of the session, none for an anonymous one. *)
Definition authenticated_id (user : option User.t) : option Z :=
  match user with
  | Some u => if User.is_authenticated u then Some (User.pk u) else None
  | None => None
  end.

(** An account matches a looked-up username without regard to case. *)
Definition username_matches (iexact : pystr -> pystr -> bool)
    (account : User.t) (v : value) : Prop :=
  match v with
  | VStr s => iexact (User.username account) s = true
  | VNone => False
  end.

(** The verified-email rows of a social identity. *)
Definition for_social (social : UserSocialAuth.t) (r : VerifiedEmail.t)
  : bool :=
  (VerifiedEmail.social_id r =? UserSocialAuth.id social)%Z.

Definition not_for_social (social : UserSocialAuth.t) (r : VerifiedEmail.t)
  : bool :=
  negb (for_social social r).

(** The email a social identity has on record, empty when it has no row. *)
Definition stored_email (social : UserSocialAuth.t)
    (table : list VerifiedEmail.t) : pystr :=
  match List.filter (for_social social) table with
  | r :: _ => VerifiedEmail.email r
  | [] => []
  end.

(** What [store_email] writes, in order: the row when the identity had
    none, and the new address when it differs from the one on record. *)
Definition store_email_writes (social : UserSocialAuth.t) (email : pystr)
    (table : list VerifiedEmail.t) : list event :=
  (match List.filter (for_social social) table with
   | [] => [VerifiedEmailCreated
              {| VerifiedEmail.social_id := UserSocialAuth.id social;
                 VerifiedEmail.email := [] |}]
   | _ :: _ => []
   end)
  ++ (if decide (stored_email social table = email) then []
      else [VerifiedEmailSaved
              {| VerifiedEmail.social_id := UserSocialAuth.id social;
                 VerifiedEmail.email := email |}]).

(** ** Sample data *)

Definition alice : User.t :=
  {| User.pk := 7; User.username := str "alice"; User.first_name := [];
     User.email := str "alice@example.org"; User.is_authenticated := true |}.

Definition email_backend : Backend := {| name := "email" |}.

Definition github_backend : Backend := {| name := "github" |}.

(** Two verified addresses, none of them primary. *)
Definition two_verified : list email_entry :=
  [ {| entry_email := str "old@example.org"; entry_verified := true;
       entry_primary := false |};
    {| entry_email := str "new@example.org"; entry_verified := true;
       entry_primary := false |} ].

(** A primary address between two others. *)
Definition with_primary : list email_entry :=
  [ {| entry_email := str "old@example.org"; entry_verified := true;
       entry_primary := false |};
    {| entry_email := str "main@example.org"; entry_verified := true;
       entry_primary := true |};
    {| entry_email := str "new@example.org"; entry_verified := true;
       entry_primary := false |} ].

(** Case folding of the ASCII letters. *)
Definition ascii_lower (c : N) : N := if between 65 90 c then c + 32 else c.

Definition ascii_iexact (a b : pystr) : bool :=
  pystr_eqb (map ascii_lower a) (map ascii_lower b).

Definition empty_world : world :=
  {| auth_user := []; usersocialauth := []; verifiedemail := []; codes := [];
     log := [] |}.

Definition alice_world : world := with_auth_user empty_world [alice].

Definition alice_github : UserSocialAuth.t :=
  {| UserSocialAuth.id := 1; UserSocialAuth.user_id := 7;
     UserSocialAuth.provider := "github"; UserSocialAuth.uid := str "4711" |}.

(** Alice with her github identity and the address it verified. *)
Definition linked_world : world :=
  {| auth_user := [alice]; usersocialauth := [alice_github];
     verifiedemail :=
       [ {| VerifiedEmail.social_id := 1;
            VerifiedEmail.email := str "alice@example.org" |} ];
     codes := []; log := [] |}.

(** ** The session and the steps that use it *)

(** What an entry of the session holds. *)
Inductive sval :=
| SNone
| SBool (b : bool)
| SInt (n : Z)
| SStr (s : pystr).

Definition sval_truthy (v : sval) : bool :=
  match v with
  | SNone => false
  | SBool b => b
  | SInt n => negb (n =? 0)%Z
  | SStr s => nonempty s
  end.

(** A number or a truth value, as the integer it compares as. *)
Definition sval_int (v : sval) : option Z :=
  match v with
  | SBool b => Some (if b then 1 else 0)%Z
  | SInt n => Some n
  | _ => None
  end.

(** [a == b] *)
Definition sval_eqb (a b : sval) : bool :=
  match a, b with
  | SNone, SNone => true
  | SStr s, SStr t => pystr_eqb s t
  | _, _ =>
      match sval_int a, sval_int b with
      | Some x, Some y => (x =? y)%Z
      | _, _ => false
      end
  end.

Record Session := {
  session_key : option pystr;
  session_data : gmap string sval
}.

(** [session.get(k, default)] *)
Definition session_get (session : Session) (k : string) (default : sval)
  : sval :=
  match session_data session !! k with
  | Some v => v
  | None => default
  end.

(** [session[k] = v] *)
Definition session_set (session : Session) (k : string) (v : sval) : Session :=
  {| session_key := session_key session;
     session_data := <[k := v]> (session_data session) |}.

(** [session.pop(k, default)]: the value and the session without the key. *)
Definition session_pop (session : Session) (k : string) (default : sval)
  : sval * Session :=
  (session_get session k default,
   {| session_key := session_key session;
      session_data := delete k (session_data session) |}).

(** [session.create()]: a new key is drawn; the data stay. *)
Definition session_create (new_key : pystr) (session : Session) : Session :=
  {| session_key := Some new_key; session_data := session_data session |}.

(** What [store_params] adds to the pipeline. *)
Record pipeline_params := {
  weblate_action : string;
  registering_user : option Z;
  weblate_expires : Z
}.

(** [int(x)] of a number: the fraction is cut off. *)
Definition py_int (x : Q) : Z := Z.quot (Qnum x) (Z.pos (Qden x)).

(** [deadline] is the value of [time.time() + settings.AUTH_TOKEN_VALID]. *)
Definition store_params (deadline : Q) (session : Session)
    (user : option User.t) : pipeline_params :=
  let registering_user :=
    match user with
    | Some u => if User.is_authenticated u then Some (User.pk u) else None
    | None => None
    end in
  let action :=
    if sval_truthy (session_get session "password_reset" (SBool false))
    then "reset"
    else "activation" in
  {| weblate_action := action;
     registering_user := registering_user;
     weblate_expires := py_int deadline |}.

Record Settings := {
  REGISTRATION_OPEN : bool;
  DEMO_SERVER : bool
}.

(** The key of [request.user], none for an anonymous visitor, as a value
    to compare with a session entry. *)
Definition pk_value (pk : option Z) : sval :=
  match pk with
  | Some n => SInt n
  | None => SNone
  end.

(** [request_user] is the key of [strategy.request.user]. *)
Definition verify_open (settings : Settings) (backend : Backend)
    (request_user : option Z) (session : Session) (user : option User.t)
  : result unit :=
  if negb (bool_decide (is_Some user)) && negb (REGISTRATION_OPEN settings)
  then Raise (AuthException backend)
  else if match user with
          | Some u => DEMO_SERVER settings
                      && pystr_eqb (User.username u) (str "demo")
          | None => false
          end
  then Raise (AuthException backend)
  else if negb (sval_eqb (pk_value request_user)
                  (session_get session "social_auth_user" SNone))
  then Raise (AuthStateForbidden backend "user")
  else Return tt.

Section CleanupNext.

(** [is_safe_url] of Django, on whatever the session holds. *)
Variable is_safe_url : sval -> result bool.

Definition cleanup_next (session : Session) : result Session :=
  let url := session_get session "next" SNone in
  if sval_truthy url then
    match is_safe_url url with
    | Return safe =>
        if negb safe then Return (session_set session "next" SNone)
        else Return session
    | Raise e => Raise e
    end
  else Return session.

End CleanupNext.

(** A message handed to [send_notification_email]. *)
Record mail := {
  mail_to : pystr;
  mail_template : string;
  mail_url : pystr
}.

Section SendValidation.

(** [reverse('social:complete', args=(name,))] *)
Variable reverse_complete : string -> pystr.
(** The key [session.create()] draws. *)
Variable new_session_key : pystr.

(** [backend_partial_token] is the attribute [backend.partial_token],
    none while [mail_validation] has not set it.  The step returns the
    session and the messages sent next to its result. *)
Definition send_validation (backend : Backend)
    (backend_partial_token : option pystr) (code : Code.t)
    (partial_token : option pystr) (session : Session) (outbox : list mail)
  : result unit * Session * list mail :=
  let session :=
    if negb (match session_key session with
             | Some key => nonempty key
             | None => false
             end)
    then session_create new_session_key session
    else session in
  let session := session_set session "registration-email-sent" (SBool true) in
  let '(flag, session) := session_pop session "password_reset" (SBool false) in
  let template := if sval_truthy flag then "reset" else "activation" in
  match (match partial_token with
         | Some token => Some token
         | None => backend_partial_token
         end) with
  | None => (Raise AttributeError, session, outbox)
  | Some token =>
      let url :=
        reverse_complete (name backend) ++ str "?verification_code="
        ++ Code.code code ++ str "&partial_token=" ++ token in
      (Return tt, session,
       outbox ++ [ {| mail_to := Code.email code; mail_template := template;
                      mail_url := url |} ])
  end.

End SendValidation.

(** A call of [notify_account_activity]. *)
Record activity := {
  activity_user : User.t;
  activity_kind : string;
  activity_method : pystr;
  activity_name : pystr
}.

Section Notify.

(** [get_auth_name] of the template tags. *)
Variable get_auth_name : string -> pystr.

(** The loop of [notify_disconnect], [sent] being the notifications made
    so far. *)
Fixpoint notify_disconnect (backend : Backend)
    (entries : list UserSocialAuth.t) (user : User.t) (sent : list activity)
  : list activity :=
  match entries with
  | [] => sent
  | social :: entries' =>
      notify_disconnect backend entries' user
        (sent ++ [ {| activity_user := user;
                      activity_kind := "auth-disconnect";
                      activity_method := get_auth_name (name backend);
                      activity_name := UserSocialAuth.uid social |} ])
  end.

End Notify.

(** ** Further notions used in the properties *)

(** No hyphen is followed by a hyphen. *)
Fixpoint no_double_hyphen (s : pystr) : bool :=
  match s with
  | c :: (d :: _) as s' =>
      negb ((c =? hyphen) && (d =? hyphen)) && no_double_hyphen s'
  | _ => true
  end.

(** The user has an address on the account. *)
Definition has_email (user : option User.t) : bool :=
  match user with
  | Some u => nonempty (User.email u)
  | None => false
  end.

(** The rows [revoke_mail_code] looks for: verified, with the code of the
    request and the address of the details. *)
Definition revocable (code : pystr) (email : value) (c : Code.t) : bool :=
  pystr_eqb (Code.code c) code
  && value_eqb (VStr (Code.email c)) email
  && Code.verified c.

Definition unverified (c : Code.t) : bool := negb (Code.verified c).

(** A verified and a pending code for the same address. *)
Definition code_world : world :=
  with_codes linked_world
    [ {| Code.code := str "abc"; Code.email := str "alice@example.org";
         Code.verified := true |};
      {| Code.code := str "xyz"; Code.email := str "alice@example.org";
         Code.verified := false |} ].

(** The session entry [social_auth_user] names the user of the request:
    it compares equal to the key of the user, or is missing or None for an
    anonymous visitor. *)
Definition session_bound (request_user : option Z) (session : Session)
  : Prop :=
  match request_user with
  | Some n => sval_int (session_get session "social_auth_user" SNone) = Some n
  | None => session_get session "social_auth_user" SNone = SNone
  end.

(** The notification [notify_disconnect] makes for one identity. *)
Definition disconnect_activity (get_auth_name : string -> pystr)
    (backend : Backend) (user : User.t) (social : UserSocialAuth.t)
  : activity :=
  {| activity_user := user; activity_kind := "auth-disconnect";
     activity_method := get_auth_name (name backend);
     activity_name := UserSocialAuth.uid social |}.

Definition demo_settings : Settings :=
  {| REGISTRATION_OPEN := false; DEMO_SERVER := true |}.

Definition alice_session : Session :=
  {| session_key := Some (str "k3y");
     session_data := {[ "social_auth_user" := SInt 7 ]} |}.

(** A safety check that lets only local paths through. *)
Definition local_only (url : sval) : result bool :=
  match url with
  | SStr (c :: _) => Return (c =? 47)
  | SStr [] => Return false
  | SNone => Return false
  | _ => Raise AttributeError
  end.

Definition evil_session : Session :=
  {| session_key := Some (str "k3y");
     session_data := {[ "next" := SStr (str "http://evil.example/") ]} |}.

Definition reset_session : Session :=
  {| session_key := None;
     session_data := {[ "password_reset" := SBool true ]} |}.

Definition sample_code : Code.t :=
  {| Code.code := str "abc"; Code.email := str "alice@example.org";
     Code.verified := false |}.

(** * Properties *)

(** ** Character classes *)

Ltac bool_hyps :=
  repeat match goal with
  | H : (_ || _) = true |- _ => apply orb_true_iff in H; destruct H as [H | H]
  | H : (_ && _) = true |- _ => apply andb_true_iff in H; destruct H as [? H]
  | H : (_ <=? _) = true |- _ => apply N.leb_le in H
  | H : (_ <? _) = true |- _ => apply N.ltb_lt in H
  | H : (_ =? _) = true |- _ => apply N.eqb_eq in H
  end.

Ltac bool_goal :=
  repeat match goal with
  | |- (_ || _) = false => apply orb_false_iff; split
  | |- (_ && _) = false => apply andb_false_iff
  | |- (_ <=? _) = false => apply N.leb_gt
  | |- (_ =? _) = false => apply N.eqb_neq
  | |- (_ <? _) = true => apply N.ltb_lt
  | |- _ \/ _ => rewrite ?N.leb_gt
  end.

Lemma username_char_range (c : N) :
  username_char c = true -> 43 <= c <= 122.
Proof.
  unfold username_char, Re.word, between, dot, at_sign, plus_sign, hyphen.
  intros H. bool_hyps; lia.
Qed.

Lemma username_char_ascii (c : N) :
  username_char c = true -> is_ascii c = true.
Proof.
  intros H. apply username_char_range in H.
  unfold is_ascii. apply N.ltb_lt. lia.
Qed.

Lemma range_not_isspace (c : N) : 43 <= c <= 122 -> py_isspace c = false.
Proof.
  intros H. unfold py_isspace, between. bool_goal; lia.
Qed.

Lemma isspace_of_space (py : python) (c : N) :
  Re.space py c = true -> py_isspace c = true.
Proof.
  destruct py; simpl; [| easy].
  unfold py_isspace. intros H. apply orb_true_iff in H. destruct H as [H | H].
  - rewrite H. reflexivity.
  - apply N.eqb_eq in H. subst c. reflexivity.
Qed.

Lemma space_of_isspace_false (py : python) (c : N) :
  py_isspace c = false -> Re.space py c = false.
Proof.
  intros H. destruct (Re.space py c) eqn:E; [| reflexivity].
  apply isspace_of_space in E. congruence.
Qed.

(** On the characters the strip pattern leaves, [strip] and [\s] agree on
    what a blank is. *)
Lemma kept_char_space (py : python) (c : N) :
  kept_char py c = true -> py_isspace c = Re.space py c.
Proof.
  unfold kept_char. intros H.
  destruct (Re.space py c) eqn:Es.
  - now apply isspace_of_space in Es.
  - assert (U : username_char c = true).
    { unfold username_char.
      destruct (Re.word c), (c =? dot), (c =? at_sign), (c =? plus_sign),
        (c =? hyphen); simpl in *; congruence. }
    apply range_not_isspace, username_char_range, U.
Qed.

Lemma kept_not_run_username (py : python) (c : N) :
  kept_char py c = true -> run_char py c = false -> username_char c = true.
Proof.
  unfold kept_char, run_char, username_char.
  destruct (Re.word c), (Re.space py c), (c =? dot), (c =? at_sign),
    (c =? plus_sign), (c =? hyphen); simpl; congruence.
Qed.

Lemma username_char_hyphen : username_char hyphen = true.
Proof. reflexivity. Qed.

(** ** The patterns *)

Section Patterns.

Variable py : python.

Lemma in_set_username (c : N) :
  Re.in_set py false
    [Re.Word; Re.Chr dot; Re.Chr at_sign; Re.Chr plus_sign; Re.Chr hyphen] c
  = username_char c.
Proof.
  unfold Re.in_set, username_char. simpl. now rewrite orb_false_r, !orb_assoc.
Qed.

Lemma in_set_strip (c : N) :
  Re.in_set py true
    [Re.Word; Re.Space; Re.Chr dot; Re.Chr at_sign; Re.Chr plus_sign;
     Re.Chr hyphen] c
  = negb (kept_char py c).
Proof.
  unfold Re.in_set, kept_char. simpl. now rewrite orb_false_r, !orb_assoc.
Qed.

Lemma in_set_cleanup (c : N) :
  Re.in_set py false [Re.Chr hyphen; Re.Space] c = run_char py c.
Proof.
  unfold Re.in_set, run_char. simpl. now rewrite orb_false_r.
Qed.

(** [STRIP_MATCHER.sub('', s)] deletes the characters outside the class. *)
Lemma sub_from_strip (fuel : nat) (s : pystr) (bos : bool) :
  (length s <= fuel)%nat ->
  Re.sub_from fuel py STRIP_MATCHER [] bos s = List.filter (kept_char py) s.
Proof.
  revert s bos. induction fuel as [| fuel IH]; intros s bos Hlen.
  - destruct s; [reflexivity | simpl in Hlen; lia].
  - destruct s as [| c s]; [reflexivity |].
    simpl in Hlen. cbn [Re.sub_from STRIP_MATCHER Re.match_here].
    rewrite in_set_strip. cbn [List.filter].
    destruct (kept_char py c); cbn [negb].
    + rewrite IH by lia. reflexivity.
    + assert ((length s <? length (c :: s))%nat = true) as ->
        by (apply Nat.ltb_lt; simpl; lia).
      rewrite IH by lia. reflexivity.
Qed.

Lemma sub_strip (s : pystr) :
  Re.sub py STRIP_MATCHER [] s = List.filter (kept_char py) s.
Proof. apply sub_from_strip. lia. Qed.

Lemma lstrip_by_length (P : N -> bool) (s : pystr) :
  (length (lstrip_by P s) <= length s)%nat.
Proof.
  induction s as [| c s IH]; simpl; [lia |].
  destruct (P c); simpl; lia.
Qed.

(** A lone repeat takes the longest run there is. *)
Lemma match_here_repeat (negate : bool) (set : list Re.atom) (bos : bool)
    (s : pystr) :
  Re.match_here py [Re.MaxRepeat negate set] bos s
  = match s with
    | c :: s' =>
        if Re.in_set py negate set c
        then Some (lstrip_by (Re.in_set py negate set) s')
        else None
    | [] => None
    end.
Proof.
  induction s as [| c s IH]; [reflexivity |].
  cbn [Re.match_here] in *. destruct (Re.in_set py negate set c); [| reflexivity].
  rewrite IH. destruct s as [| d s]; [reflexivity |].
  cbn [lstrip_by]. destruct (Re.in_set py negate set d); reflexivity.
Qed.

Lemma collapse_runs_head (s : pystr) (c : N) :
  run_char py c = true ->
  collapse_runs py (c :: s)
  = hyphen :: collapse_runs py (lstrip_by (run_char py) s).
Proof.
  revert c. induction s as [| d s IH]; intros c Hc.
  - simpl. now rewrite Hc.
  - cbn [collapse_runs lstrip_by]. rewrite Hc.
    destruct (run_char py d) eqn:Hd.
    + rewrite <- (IH d Hd). cbn [collapse_runs]. now rewrite Hd.
    + cbn [collapse_runs]. now rewrite Hd.
Qed.

Lemma lstrip_by_ext (P Q : N -> bool) (s : pystr) :
  (forall c, In c s -> P c = Q c) -> lstrip_by P s = lstrip_by Q s.
Proof.
  induction s as [| c s IH]; intros H; [reflexivity |].
  cbn [lstrip_by]. rewrite <- (H c) by (left; reflexivity).
  destruct (P c); [| reflexivity].
  apply IH. intros d Hd. apply H. right. exact Hd.
Qed.

(** [CLEANUP_MATCHER.sub('-', s)] turns each run into one hyphen. *)
Lemma sub_from_cleanup (fuel : nat) (s : pystr) (bos : bool) :
  (length s <= fuel)%nat ->
  Re.sub_from fuel py CLEANUP_MATCHER (str "-") bos s = collapse_runs py s.
Proof.
  revert s bos. induction fuel as [| fuel IH]; intros s bos Hlen.
  - destruct s; [reflexivity | simpl in Hlen; lia].
  - destruct s as [| c s]; [reflexivity |].
    simpl in Hlen. cbn [Re.sub_from]. unfold CLEANUP_MATCHER.
    rewrite match_here_repeat.
    rewrite in_set_cleanup.
    rewrite (lstrip_by_ext _ (run_char py)) by (intros; apply in_set_cleanup).
    destruct (run_char py c) eqn:Hc.
    + assert ((length (lstrip_by (run_char py) s) <? length (c :: s))%nat
              = true) as ->.
      { apply Nat.ltb_lt. pose proof (lstrip_by_length (run_char py) s).
        simpl. lia. }
      rewrite IH by (pose proof (lstrip_by_length (run_char py) s); lia).
      rewrite collapse_runs_head by exact Hc. reflexivity.
    + rewrite IH by lia. cbn [collapse_runs]. now rewrite Hc.
Qed.

Lemma sub_cleanup (s : pystr) :
  Re.sub py CLEANUP_MATCHER (str "-") s = collapse_runs py s.
Proof. apply sub_from_cleanup. lia. Qed.

Lemma username_tail_cons (bos : bool) (c : N) (s : pystr) :
  Re.match_here py username_tail bos (c :: s)
  = if username_char c then
      match Re.match_here py username_tail false s with
      | Some rest => Some rest
      | None => Re.match_here py [Re.AtEnd] false s
      end
    else None.
Proof.
  unfold username_tail. cbn [Re.match_here]. rewrite in_set_username.
  reflexivity.
Qed.

Lemma username_tail_nil (bos : bool) :
  Re.match_here py username_tail bos [] = None.
Proof. reflexivity. Qed.

Lemma matches_username_tail (s : pystr) :
  Re.matches py USERNAME_MATCHER s
  = match Re.match_here py username_tail true s with
    | Some _ => true
    | None => false
    end.
Proof. reflexivity. Qed.

Lemma username_tail_all (bos : bool) (s : pystr) :
  s <> [] -> forallb username_char s = true ->
  exists rest, Re.match_here py username_tail bos s = Some rest.
Proof.
  revert bos. induction s as [| c s IH]; intros bos Hne Hall; [congruence |].
  cbn [forallb] in Hall. apply andb_true_iff in Hall. destruct Hall as [Hc Hs].
  rewrite username_tail_cons, Hc.
  destruct s as [| d s].
  - exists []. reflexivity.
  - destruct (IH false) as [rest ->]; [congruence | exact Hs |].
    exists rest. reflexivity.
Qed.

(** A text made of username characters only matches the pattern. *)
Lemma matches_username_chars (s : pystr) :
  s <> [] -> forallb username_char s = true ->
  Re.matches py USERNAME_MATCHER s = true.
Proof.
  intros Hne Hall. rewrite matches_username_tail.
  destruct (username_tail_all true s Hne Hall) as [rest ->]. reflexivity.
Qed.

Lemma username_tail_shape (bos : bool) (s rest : pystr) :
  Re.match_here py username_tail bos s = Some rest ->
  exists body,
    body <> [] /\ forallb username_char body = true
    /\ (s = body \/ s = body ++ [newline]).
Proof.
  revert bos rest. induction s as [| c s IH]; intros bos rest H.
  - rewrite username_tail_nil in H. discriminate.
  - rewrite username_tail_cons in H.
    destruct (username_char c) eqn:Hc; [| discriminate].
    destruct (Re.match_here py username_tail false s) as [rest' |] eqn:Hs.
    + destruct (IH false rest' Hs) as (body & Hne & Hall & Hshape).
      exists (c :: body). split; [congruence |]. split.
      * cbn [forallb]. now rewrite Hc, Hall.
      * destruct Hshape as [-> | ->]; [left | right]; reflexivity.
    + exists [c]. split; [congruence |]. split.
      * cbn [forallb]. now rewrite Hc.
      * destruct s as [| d [| e s]]; cbn [Re.match_here] in H.
        -- left. reflexivity.
        -- destruct (d =? 10) eqn:Hd; [| discriminate].
           apply N.eqb_eq in Hd. subst d. right. reflexivity.
        -- discriminate.
Qed.

Lemma username_tail_newline (bos : bool) (body : pystr) :
  body <> [] -> forallb username_char body = true ->
  exists rest,
    Re.match_here py username_tail bos (body ++ [newline]) = Some rest.
Proof.
  revert bos. induction body as [| c body IH]; intros bos Hne Hall;
    [congruence |].
  cbn [forallb] in Hall. apply andb_true_iff in Hall. destruct Hall as [Hc Hs].
  cbn [app]. rewrite username_tail_cons, Hc.
  destruct body as [| d body].
  - exists [newline]. reflexivity.
  - destruct (IH false) as [rest ->]; [congruence | exact Hs |].
    exists rest. reflexivity.
Qed.

(** What the pattern accepts: username characters, at least one, and
    after them nothing or one newline, since [$] also matches in front
    of a newline that ends the text. *)
Lemma matches_username_iff (s : pystr) :
  Re.matches py USERNAME_MATCHER s = true
  <-> exists body,
        body <> [] /\ forallb username_char body = true
        /\ (s = body \/ s = body ++ [newline]).
Proof.
  rewrite matches_username_tail. split.
  - destruct (Re.match_here py username_tail true s) as [rest |] eqn:H;
      [| discriminate].
    intros _. exact (username_tail_shape true s rest H).
  - intros (body & Hne & Hall & [-> | ->]).
    + destruct (username_tail_all true body Hne Hall) as [rest ->].
      reflexivity.
    + destruct (username_tail_newline true body Hne Hall) as [rest ->].
      reflexivity.
Qed.

End Patterns.

(** ** [slugify_username] *)

Lemma lstrip_by_In (P : N -> bool) (s : pystr) (c : N) :
  In c (lstrip_by P s) -> In c s.
Proof.
  induction s as [| d s IH]; [easy |].
  cbn [lstrip_by]. destruct (P d); [| easy].
  intros H. right. apply IH, H.
Qed.

Lemma strip_by_In (P : N -> bool) (s : pystr) (c : N) :
  In c (strip_by P s) -> In c s.
Proof.
  unfold strip_by. intros H.
  apply in_rev, lstrip_by_In, in_rev, lstrip_by_In in H. exact H.
Qed.

Lemma strip_by_ext (P Q : N -> bool) (s : pystr) :
  (forall c, In c s -> P c = Q c) -> strip_by P s = strip_by Q s.
Proof.
  intros H. unfold strip_by.
  rewrite (lstrip_by_ext P Q s H). f_equal. apply lstrip_by_ext.
  intros c Hc. apply H. apply in_rev, lstrip_by_In in Hc. exact Hc.
Qed.

Lemma filter_all (P : N -> bool) (s : pystr) :
  forallb P s = true -> List.filter P s = s.
Proof.
  induction s as [| c s IH]; [reflexivity |].
  cbn [forallb List.filter]. intros H. apply andb_true_iff in H.
  destruct H as [-> H]. now rewrite IH.
Qed.

Lemma forallb_filter (P : N -> bool) (s : pystr) :
  forallb P (List.filter P s) = true.
Proof.
  apply forallb_forall. intros c Hc. apply filter_In in Hc. tauto.
Qed.

(** Only username characters are left once the runs are collapsed. *)
Lemma collapse_runs_username (py : python) (s : pystr) :
  (forall c, In c s -> kept_char py c = true) ->
  forallb username_char (collapse_runs py s) = true.
Proof.
  induction s as [| c s IH]; intros H; [reflexivity |].
  assert (Hs : forallb username_char (collapse_runs py s) = true)
    by (apply IH; intros d Hd; apply H; right; exact Hd).
  cbn [collapse_runs]. destruct (run_char py c) eqn:Hc.
  - destruct s as [| d s]; [reflexivity |].
    destruct (run_char py d); [exact Hs |].
    cbn [forallb]. now rewrite Hs.
  - cbn [forallb]. rewrite Hs, andb_true_r.
    apply (kept_not_run_username py); [apply H; left; reflexivity | exact Hc].
Qed.


(** C2: [slugify_username] normalizes with NFKD and drops what is not
    ASCII; a result that matches [^[\w.@+-]+$] is returned as it is;
    otherwise the characters outside [[\w\s.@+-]] are removed, the text is
    trimmed of the whitespace around it, and each maximal run of whitespace
    and hyphens becomes one hyphen. *)
Theorem slugify_username_algorithm (nfkd : pystr -> pystr) (py : python)
    (value : pystr) :
  slugify_username nfkd py value = slugify_username_spec nfkd py value.
Proof.
  unfold slugify_username, slugify_username_spec, to_ascii, decode_ascii,
    encode_ascii_ignore.
  destruct (Re.matches py USERNAME_MATCHER (List.filter is_ascii (nfkd value)));
    [reflexivity |].
  rewrite sub_cleanup, sub_strip. f_equal. unfold strip.
  apply strip_by_ext. intros c Hc. apply kept_char_space.
  apply filter_In in Hc. tauto.
Qed.

Section Idempotence.

Variable nfkd : pystr -> pystr.
Variable py : python.

(** ASCII characters have no decomposition. *)
Hypothesis nfkd_ascii :
  forall s : pystr, forallb is_ascii s = true -> nfkd s = s.

Lemma to_ascii_fixed (s : pystr) :
  forallb is_ascii s = true -> to_ascii nfkd s = s.
Proof.
  intros H. unfold to_ascii, decode_ascii, encode_ascii_ignore.
  rewrite (nfkd_ascii s H). apply filter_all, H.
Qed.

Lemma username_chars_ascii (s : pystr) :
  forallb username_char s = true -> forallb is_ascii s = true.
Proof.
  rewrite !forallb_forall. intros H c Hc. apply username_char_ascii, H, Hc.
Qed.

(** C1: applied to its own output, [slugify_username] returns it. *)
Theorem slugify_username_idempotent (value : pystr) :
  slugify_username nfkd py (slugify_username nfkd py value)
  = slugify_username nfkd py value.
Proof.
  unfold slugify_username at 2 3.
  rewrite sub_cleanup, sub_strip.
  unfold to_ascii, decode_ascii, encode_ascii_ignore.
  set (v := List.filter is_ascii (nfkd value)).
  destruct (Re.matches py USERNAME_MATCHER v) eqn:Hm.
  - unfold slugify_username.
    rewrite (to_ascii_fixed v) by apply forallb_filter.
    now rewrite Hm.
  - remember (collapse_runs py (strip (List.filter (kept_char py) v)))
      as w eqn:Ew.
    assert (Hw : forallb username_char w = true).
    { subst w. apply collapse_runs_username. intros c Hc.
      apply strip_by_In, filter_In in Hc. tauto. }
    unfold slugify_username.
    rewrite (to_ascii_fixed w) by apply username_chars_ascii, Hw.
    clear Ew. destruct w as [| c w]; [reflexivity |].
    rewrite (matches_username_chars py (c :: w)); [reflexivity | easy | exact Hw].
Qed.

End Idempotence.

Lemma slugify_username_idempotent_witness :
  (forall s : pystr, forallb is_ascii s = true -> (fun t : pystr => t) s = s)
  /\ slugify_username (fun t => t) Py3
       (slugify_username (fun t => t) Py3 (str " John  Doe - jr! "))
     = slugify_username (fun t => t) Py3 (str " John  Doe - jr! ").
Proof.
  split.
  - intros s _. reflexivity.
  - apply (slugify_username_idempotent (fun t => t) Py3).
    intros s _. reflexivity.
Defined.

Example slugify_spaces :
  slugify_username (fun s => s) Py3 (str "  John   Doe -- jr! ")
  = str "John-Doe-jr".
Proof. vm_compute. reflexivity. Qed.

Example slugify_keeps_valid :
  slugify_username (fun s => s) Py3 (str "john.doe@example")
  = str "john.doe@example".
Proof. vm_compute. reflexivity. Qed.

(** A newline that ends a valid username stays: [$] matches in front of it. *)
Example slugify_trailing_newline :
  slugify_username (fun s => s) Py2 (str "john" ++ [newline])
  = str "john" ++ [newline].
Proof. vm_compute. reflexivity. Qed.

(** U+001C is a blank for [\s] on Python 3 only. *)
Example slugify_file_separator :
  slugify_username (fun s => s) Py3 (str "a!" ++ [28] ++ str "b") = str "a-b"
  /\ slugify_username (fun s => s) Py2 (str "a!" ++ [28] ++ str "b") = str "ab".
Proof. split; vm_compute; reflexivity. Qed.

(** ** [ensure_valid] *)

Lemma option_Z_eqb_decide (a b : option Z) :
  option_Z_eqb a b = bool_decide (a = b).
Proof.
  destruct a as [x |], b as [y |]; simpl; try reflexivity.
  destruct (Z.eqb_spec x y) as [-> | Hne].
  - symmetry. apply bool_decide_eq_true. reflexivity.
  - symmetry. apply bool_decide_eq_false. congruence.
Qed.

(** C3: a link whose expiry time lies in the past is refused as expired,
    whoever the user is and whatever the action, a password reset too. *)
Theorem ensure_valid_expired (now : Q) (backend : Backend)
    (user : option User.t) (registering_user : option Z)
    (weblate_action : string) (weblate_expires : Z) :
  (inject_Z weblate_expires < now)%Q ->
  ensure_valid now backend user registering_user weblate_action weblate_expires
  = Raise (LinkExpired backend).
Proof.
  intros H. unfold ensure_valid, Qlt_bool.
  apply Qlt_alt in H. unfold Qcompare in *. rewrite H. reflexivity.
Qed.

Lemma ensure_valid_expired_witness :
  (inject_Z 1000 < 1001 # 1)%Q
  /\ ensure_valid (1001 # 1) email_backend (Some alice) (Some 7%Z) "reset" 1000
     = Raise (LinkExpired email_backend).
Proof.
  split.
  - reflexivity.
  - apply ensure_valid_expired. reflexivity.
Defined.

(** C4: while the link has not expired, a password reset passes without a
    look at the user; any other action passes when the id of the session's
    user, or none, equals [registering_user], and is refused as a user
    mismatch when it does not. *)
Theorem ensure_valid_unexpired (now : Q) (backend : Backend)
    (user : option User.t) (registering_user : option Z)
    (weblate_action : string) (weblate_expires : Z) :
  (now <= inject_Z weblate_expires)%Q ->
  ensure_valid now backend user registering_user weblate_action weblate_expires
  = if decide (weblate_action = "reset") then Return tt
    else if decide (authenticated_id user = registering_user) then Return tt
    else Raise (SessionUserMismatch backend).
Proof.
  intros H. unfold ensure_valid, Qlt_bool.
  assert (Hnot : (inject_Z weblate_expires ?= now)%Q <> Lt).
  { intros E. apply Qlt_alt in E. exact (Qlt_not_le _ _ E H). }
  assert (Hgo : Qlt_bool (inject_Z weblate_expires) now = false).
  { unfold Qlt_bool.
    destruct (inject_Z weblate_expires ?= now)%Q; congruence. }
  fold (Qlt_bool (inject_Z weblate_expires) now). rewrite Hgo.
  destruct (String.eqb_spec weblate_action "reset") as [-> | Hne];
    [reflexivity |].
  rewrite decide_False by exact Hne.
  fold (authenticated_id user). rewrite option_Z_eqb_decide.
  destruct (decide (authenticated_id user = registering_user)) as [Heq | Hdiff].
  - rewrite bool_decide_eq_true_2 by exact Heq. reflexivity.
  - rewrite bool_decide_eq_false_2 by exact Hdiff. reflexivity.
Qed.

Lemma ensure_valid_unexpired_witness :
  (1000 # 1 <= inject_Z 1000)%Q
  /\ ensure_valid (1000 # 1) email_backend (Some alice) (Some 8%Z)
       "activation" 1000
     = Raise (SessionUserMismatch email_backend).
Proof.
  split.
  - discriminate.
  - rewrite (ensure_valid_unexpired (1000 # 1) email_backend (Some alice)
               (Some 8%Z) "activation" 1000); [reflexivity | discriminate].
Defined.

(** ** [get_github_email] and [require_email] *)

Lemma github_email_loop_choice (email : option pystr)
    (data : list email_entry) :
  github_email_loop email data
  = match List.find (fun e => entry_verified e && entry_primary e) data with
    | Some e => Some (entry_email e)
    | None =>
        match last (List.filter entry_verified data) with
        | Some e => Some (entry_email e)
        | None => email
        end
    end.
Proof.
  revert email. induction data as [| entry data IH]; intros email;
    [reflexivity |].
  cbn [github_email_loop List.find List.filter].
  destruct (entry_verified entry); cbn [negb andb].
  - destruct (entry_primary entry); [reflexivity |].
    rewrite IH.
    destruct (List.find _ data); [reflexivity |].
    rewrite last_cons.
    destruct (last (List.filter entry_verified data)); reflexivity.
  - apply IH.
Qed.

(** Whatever the step returns, the dictionary it leaves is the one the
    github lookup produced. *)
Lemma require_email_details (user_emails : pystr -> list email_entry)
    (backend : Backend) (details : gmap string value) (access_token : pystr)
    (user : option User.t) (is_new : bool) :
  fst (require_email user_emails backend details access_token user is_new)
  = if String.eqb (name backend) "github" then
      match get_github_email user_emails access_token with
      | Some email => <["email" := VStr email]> details
      | None => details
      end
    else details.
Proof.
  unfold require_email.
  set (updated := if String.eqb (name backend) "github" then _ else _).
  destruct user as [u |]; [destruct (truthy (VStr (User.email u))) |];
    try (destruct (String.eqb (name backend) "email"); reflexivity);
    destruct (is_new && negb (truthy (get_default updated "email" VNone)));
    reflexivity.
Qed.

(** C5, as the code has it: the address chosen from the entries of the
    secondary endpoint is that of the first verified primary entry, and
    that of the last verified entry when no verified entry is primary; for
    the github backend [details['email']] is set to it when there is one,
    and [details] stays as it is otherwise. *)
Theorem require_email_github (user_emails : pystr -> list email_entry)
    (backend : Backend) (details : gmap string value) (access_token : pystr)
    (user : option User.t) (is_new : bool) :
  name backend = "github" ->
  get_github_email user_emails access_token
  = primary_else_last_verified (user_emails access_token)
  /\ fst (require_email user_emails backend details access_token user is_new)
     = match primary_else_last_verified (user_emails access_token) with
       | Some email => <["email" := VStr email]> details
       | None => details
       end.
Proof.
  intros Hname.
  assert (Hget : get_github_email user_emails access_token
                 = primary_else_last_verified (user_emails access_token)).
  { unfold get_github_email, primary_else_last_verified.
    rewrite github_email_loop_choice.
    destruct (List.find _ (user_emails access_token)); [reflexivity |].
    destruct (last _); reflexivity. }
  split; [exact Hget |].
  rewrite require_email_details, Hname, Hget. reflexivity.
Qed.

Lemma require_email_github_witness :
  name github_backend = "github"
  /\ get_github_email (fun _ => with_primary) (str "token")
     = Some (str "main@example.org")
  /\ fst (require_email (fun _ => two_verified) github_backend ∅ (str "token")
            None true)
     = <["email" := VStr (str "new@example.org")]> ∅.
Proof.
  split; [reflexivity |].
  split.
  - apply (require_email_github (fun _ => with_primary) github_backend ∅
             (str "token") None true eq_refl).
  - apply (require_email_github (fun _ => two_verified) github_backend ∅
             (str "token") None true eq_refl).
Defined.

(** C5, as the specification words it, fails: of two verified addresses
    that are not primary the step takes the second. *)
Lemma get_github_email_not_first_verified :
  get_github_email (fun _ => two_verified) (str "token")
  <> primary_else_first_verified two_verified.
Proof. vm_compute. discriminate. Qed.

(** ** [verify_username] *)

Lemma existsb_username_matches (iexact : pystr -> pystr -> bool)
    (table : list User.t) (s : pystr) :
  existsb (fun u => iexact (User.username u) s) table = true
  <-> exists account, In account table /\ username_matches iexact account (VStr s).
Proof. apply existsb_exists. Qed.

Lemma verify_username_lookup (iexact : pystr -> pystr -> bool)
    (backend : Backend) (details : gmap string value) (v : value) (w : world) :
  details !! "username" = Some v ->
  verify_username iexact backend details None w
  = (match v with
     | VStr s =>
         if existsb (fun u => iexact (User.username u) s) (auth_user w)
         then Raise (AuthAlreadyAssociated backend)
         else Return tt
     | VNone => Return tt
     end, w).
Proof.
  intros Hv.
  unfold verify_username, contains_key, mbind, M_bind, lift, getitem,
    username_iexact_exists.
  rewrite Hv. destruct v as [| s]; cbn; [reflexivity |].
  destruct (existsb _ (auth_user w)); reflexivity.
Qed.

Lemma verify_username_skip (iexact : pystr -> pystr -> bool)
    (backend : Backend) (details : gmap string value) (user : option User.t)
    (w : world) :
  is_Some user \/ details !! "username" = None ->
  verify_username iexact backend details user w = (Return tt, w).
Proof.
  unfold verify_username, contains_key.
  intros [[u ->] | Hv]; [reflexivity |].
  rewrite Hv. destruct user; reflexivity.
Qed.

(** C6: with a user bound or without a username among the details the step
    returns and touches nothing; otherwise it raises AuthAlreadyAssociated
    exactly when the account store holds an account whose username equals
    [details['username']] up to case, and returns when it holds none.  The
    store is never written. *)
Theorem verify_username_collision (iexact : pystr -> pystr -> bool)
    (backend : Backend) (details : gmap string value) (user : option User.t)
    (w : world) :
  snd (verify_username iexact backend details user w) = w
  /\ (is_Some user \/ details !! "username" = None ->
      fst (verify_username iexact backend details user w) = Return tt)
  /\ (forall v, user = None -> details !! "username" = Some v ->
      (fst (verify_username iexact backend details user w)
       = Raise (AuthAlreadyAssociated backend)
       <-> exists account,
             In account (auth_user w) /\ username_matches iexact account v)
      /\ (fst (verify_username iexact backend details user w) = Return tt
          <-> ~ exists account,
                  In account (auth_user w)
                  /\ username_matches iexact account v)).
Proof.
  destruct user as [u |].
  { rewrite verify_username_skip by (left; eexists; reflexivity).
    split; [reflexivity |]. split; [reflexivity |]. discriminate. }
  destruct (details !! "username") as [v |] eqn:Hv.
  2: { rewrite verify_username_skip by (right; exact Hv).
       split; [reflexivity |]. split; [reflexivity |]. discriminate. }
  rewrite (verify_username_lookup iexact backend details v w Hv).
  split; [reflexivity |]. split.
  { intros [[x Hx] | Hx]; discriminate. }
  intros v' _ Ev. injection Ev as <-. cbn [fst].
  destruct v as [| s].
  - split; split.
    + discriminate.
    + intros (account & _ & []).
    + intros _ (account & _ & []).
    + reflexivity.
  - pose proof (existsb_username_matches iexact (auth_user w) s) as Hex.
    destruct (existsb _ (auth_user w)); split; split.
    + intros _. apply Hex. reflexivity.
    + reflexivity.
    + discriminate.
    + intros Hno. exfalso. apply Hno, Hex. reflexivity.
    + discriminate.
    + intros H. apply Hex in H. discriminate.
    + intros _ H. apply Hex in H. discriminate.
    + reflexivity.
Qed.

Lemma verify_username_collision_witness :
  fst (verify_username ascii_iexact github_backend
         {[ "username" := VStr (str "Alice") ]} None alice_world)
  = Raise (AuthAlreadyAssociated github_backend).
Proof.
  destruct (verify_username_collision ascii_iexact github_backend
              {[ "username" := VStr (str "Alice") ]} None alice_world)
    as (_ & _ & H).
  destruct (H (VStr (str "Alice")) eq_refl (lookup_singleton_eq _ _))
    as [[_ Hraise] _].
  apply Hraise. exists alice. split; [left; reflexivity | reflexivity].
Defined.

(** ** [revoke_mail_code] *)

Lemma objects_get_raises {A : Type} (P : A -> bool) (rows : list A) (e : exn) :
  objects_get P rows = Raise e ->
  e = DoesNotExist \/ e = MultipleObjectsReturned.
Proof.
  unfold objects_get.
  destruct (select P 0 rows) as [| r [| r' found]]; intros H;
    try discriminate; injection H as <-; auto.
Qed.

(** With an email among the details the step returns, or fails because
    the code table holds the verified code twice. *)
Lemma revoke_mail_code_present (data : gmap string pystr)
    (details : gmap string value) (v : value) (w : world) :
  details !! "email" = Some v ->
  (exists w', revoke_mail_code data details w = (Return tt, w'))
  \/ revoke_mail_code data details w = (Raise MultipleObjectsReturned, w).
Proof.
  intros Hv.
  unfold revoke_mail_code, mbind, M_bind, lift, getitem. rewrite Hv.
  destruct (truthy v && contains_key data "verification_code") eqn:Hgo;
    [| left; exists w; reflexivity].
  apply andb_true_iff in Hgo. destruct Hgo as [_ Hkey].
  unfold contains_key in Hkey. apply bool_decide_eq_true in Hkey.
  destruct Hkey as [verification_code Hcode].
  unfold except_DoesNotExist, Code_objects_get. rewrite Hcode.
  destruct (objects_get _ (codes w)) as [[i code] | e] eqn:Hget.
  - left. eexists. reflexivity.
  - destruct (objects_get_raises _ _ _ Hget) as [-> | ->].
    + left. exists w. reflexivity.
    + right. reflexivity.
Qed.

(** C9: [details['email']] is read before anything is tested, so the step
    raises KeyError exactly when the details have no [email] key, whatever
    the request carries; it then leaves the store as it was.  Only with
    the key present can the step return. *)
Theorem revoke_mail_code_needs_email (data : gmap string pystr)
    (details : gmap string value) (w : world) :
  (fst (revoke_mail_code data details w) = Raise (KeyError "email")
   <-> details !! "email" = None)
  /\ (details !! "email" = None -> snd (revoke_mail_code data details w) = w)
  /\ (fst (revoke_mail_code data details w) = Return tt ->
      is_Some (details !! "email")).
Proof.
  destruct (details !! "email") as [v |] eqn:Hv.
  - destruct (revoke_mail_code_present data details v w Hv) as [[w' ->] | ->];
      cbn [fst snd]; (split; [split; discriminate |]);
      (split; [discriminate | intros _; eexists; reflexivity]).
  - assert (Hrun : revoke_mail_code data details w
                   = (Raise (KeyError "email"), w)).
    { unfold revoke_mail_code, mbind, M_bind, lift, getitem.
      rewrite Hv. reflexivity. }
    rewrite Hrun. cbn [fst snd].
    split; [split; reflexivity |]. split; [reflexivity | discriminate].
Qed.

Lemma revoke_mail_code_needs_email_witness :
  fst (revoke_mail_code {[ "verification_code" := str "abc" ]}
         {[ "username" := VStr (str "alice") ]} empty_world)
  = Raise (KeyError "email")
  /\ snd (revoke_mail_code {[ "verification_code" := str "abc" ]}
            {[ "username" := VStr (str "alice") ]} empty_world)
     = empty_world.
Proof.
  destruct (revoke_mail_code_needs_email
              {[ "verification_code" := str "abc" ]}
              {[ "username" := VStr (str "alice") ]} empty_world)
    as ([_ Hraise] & Hsame & _).
  split; [apply Hraise | apply Hsame]; reflexivity.
Defined.

(** ** [adjust_primary_mail] *)

Lemma pystr_eqb_eq (a b : pystr) : pystr_eqb a b = true <-> a = b.
Proof. apply bool_decide_eq_true. Qed.

(** C10: when no verified email is left after the disconnect the step
    fails with IndexError at [verified[0]], and only then; the store is
    as it was.  When a remaining verified email equals the primary email
    of the user, the step returns and neither the user nor the store has
    changed. *)
Theorem adjust_primary_mail_needs_verified (entries : list UserSocialAuth.t)
    (user : User.t) (w : world) :
  (fst (adjust_primary_mail entries user w) = Raise IndexError
   <-> remaining_verified entries user w = [])
  /\ (remaining_verified entries user w = [] ->
      snd (adjust_primary_mail entries user w) = w)
  /\ ((exists v, In v (remaining_verified entries user w)
                 /\ VerifiedEmail.email v = User.email user) ->
      adjust_primary_mail entries user w = (Return user, w)).
Proof.
  unfold adjust_primary_mail.
  destruct (existsb _ (remaining_verified entries user w)) eqn:Hbacked.
  - apply existsb_exists in Hbacked. destruct Hbacked as (v & Hin & Heq).
    cbn [fst snd]. split; [| split].
    + split; [discriminate |]. intros Hnone. rewrite Hnone in Hin.
      destruct Hin.
    + reflexivity.
    + reflexivity.
  - destruct (remaining_verified entries user w) as [| first rest] eqn:Hrem.
    + cbn. split; [split; reflexivity |]. split; [reflexivity |].
      intros (v & [] & _).
    + cbn. split; [split; discriminate |]. split; [discriminate |].
      intros (v & Hin & Heq). exfalso.
      assert (Hex : existsb
                (fun v => pystr_eqb (VerifiedEmail.email v) (User.email user))
                (first :: rest) = true).
      { apply existsb_exists. exists v. split; [exact Hin |].
        apply pystr_eqb_eq, Heq. }
      rewrite Hex in Hbacked. discriminate.
Qed.

Lemma adjust_primary_mail_needs_verified_witness :
  fst (adjust_primary_mail [alice_github] alice linked_world) = Raise IndexError
  /\ snd (adjust_primary_mail [alice_github] alice linked_world) = linked_world
  /\ adjust_primary_mail [] alice linked_world = (Return alice, linked_world).
Proof.
  split; [| split].
  - apply (adjust_primary_mail_needs_verified [alice_github] alice linked_world).
    reflexivity.
  - apply (adjust_primary_mail_needs_verified [alice_github] alice linked_world).
    reflexivity.
  - apply (adjust_primary_mail_needs_verified [] alice linked_world).
    eexists. split; [left; reflexivity | reflexivity].
Defined.

(** ** [store_email] *)

Lemma select_filter {A : Type} (P : A -> bool) (i : nat) (rows : list A) :
  map snd (select P i rows) = List.filter P rows.
Proof.
  revert i. induction rows as [| r rows IH]; intros i; [reflexivity |].
  cbn [select List.filter]. destruct (P r); cbn [map snd]; now rewrite IH.
Qed.

(** A filter that keeps one row splits the table around it. *)
Lemma select_single {A : Type} (P : A -> bool) (i j : nat) (rows : list A)
    (r : A) :
  select P i rows = [(j, r)] ->
  exists before after,
    rows = before ++ r :: after /\ j = (i + length before)%nat
    /\ List.filter P before = [] /\ List.filter P after = []
    /\ P r = true.
Proof.
  revert i. induction rows as [| x rows IH]; intros i H; [discriminate |].
  cbn [select] in H. destruct (P x) eqn:Hx.
  - injection H as <- <- Hrest.
    exists [], rows. repeat split; [cbn; lia | | exact Hx].
    rewrite <- (select_filter P (S i)), Hrest. reflexivity.
  - destruct (IH (S i) H) as (before & after & -> & -> & Hb & Ha & Hr).
    exists (x :: before), after. repeat split; [cbn; lia | | exact Ha | exact Hr].
    cbn [List.filter]. now rewrite Hx.
Qed.

Lemma filter_nil_negb {A : Type} (P : A -> bool) (rows : list A) :
  List.filter P rows = [] -> List.filter (fun r => negb (P r)) rows = rows.
Proof.
  induction rows as [| r rows IH]; [reflexivity |].
  cbn [List.filter]. destruct (P r); [discriminate |].
  intros H. cbn [negb]. now rewrite IH.
Qed.

Lemma for_social_row (social : UserSocialAuth.t) (r : VerifiedEmail.t)
    (email : pystr) :
  for_social social r = true ->
  VerifiedEmail.set_email r email
  = {| VerifiedEmail.social_id := UserSocialAuth.id social;
       VerifiedEmail.email := email |}.
Proof.
  unfold for_social, VerifiedEmail.set_email. intros H.
  apply Z.eqb_eq in H. now rewrite H.
Qed.

(** What the step does when the identity has no row: the row is created
    with an empty address, which is then replaced unless the new address
    is empty too. *)
Lemma store_email_created (backend : Backend) (social : UserSocialAuth.t)
    (details : gmap string value) (email : pystr) (w : world) :
  details !! "email" = Some (VStr email) ->
  select (for_social social) 0 (verifiedemail w) = [] ->
  let row0 := {| VerifiedEmail.social_id := UserSocialAuth.id social;
                 VerifiedEmail.email := [] |} in
  let w0 := logged (with_verifiedemail w (verifiedemail w ++ [row0]))
                   (VerifiedEmailCreated row0) in
  store_email backend social details w
  = (Return tt,
     if pystr_eqb [] email then w0
     else logged
            (with_verifiedemail w0
               (<[length (verifiedemail w) :=
                    VerifiedEmail.set_email row0 email]>
                  (verifiedemail w0)))
            (VerifiedEmailSaved (VerifiedEmail.set_email row0 email))).
Proof.
  intros Hemail Hsel. cbv zeta.
  unfold store_email, mbind, M_bind, VerifiedEmail_get_or_create, objects_get.
  rewrite Hemail. cbv zeta.
  change (fun r : VerifiedEmail.t =>
            (VerifiedEmail.social_id r =? UserSocialAuth.id social)%Z)
    with (for_social social).
  rewrite Hsel. cbn [VerifiedEmail.email].
  destruct (pystr_eqb [] email); reflexivity.
Qed.

(** What the step does when the identity has one row: the row is saved
    with the new address unless it holds it already. *)
Lemma store_email_found (backend : Backend) (social : UserSocialAuth.t)
    (details : gmap string value) (email : pystr) (w : world) (j : nat)
    (r : VerifiedEmail.t) :
  details !! "email" = Some (VStr email) ->
  select (for_social social) 0 (verifiedemail w) = [(j, r)] ->
  store_email backend social details w
  = (Return tt,
     if pystr_eqb (VerifiedEmail.email r) email then w
     else logged
            (with_verifiedemail w
               (<[j := VerifiedEmail.set_email r email]> (verifiedemail w)))
            (VerifiedEmailSaved (VerifiedEmail.set_email r email))).
Proof.
  intros Hemail Hsel.
  unfold store_email, mbind, M_bind, VerifiedEmail_get_or_create, objects_get.
  rewrite Hemail. cbv zeta.
  change (fun r : VerifiedEmail.t =>
            (VerifiedEmail.social_id r =? UserSocialAuth.id social)%Z)
    with (for_social social).
  rewrite Hsel.
  destruct (pystr_eqb (VerifiedEmail.email r) email); reflexivity.
Qed.

Lemma filter_around {A : Type} (P : A -> bool) (before after : list A) (r : A) :
  List.filter P before = [] -> List.filter P after = [] -> P r = true ->
  List.filter P (before ++ r :: after) = [r]
  /\ List.filter (fun x => negb (P x)) (before ++ r :: after) = before ++ after.
Proof.
  intros Hb Ha Hr. rewrite !List.filter_app. cbn [List.filter].
  rewrite Hb, Ha, Hr. cbn [negb app].
  rewrite (filter_nil_negb P before Hb), (filter_nil_negb P after Ha).
  split; reflexivity.
Qed.

Lemma for_social_new (social : UserSocialAuth.t) (email : pystr) :
  for_social social
    {| VerifiedEmail.social_id := UserSocialAuth.id social;
       VerifiedEmail.email := email |} = true.
Proof. unfold for_social. cbn. apply Z.eqb_refl. Qed.

(** C7: the step raises MissingEmail exactly when the details have no
    email, the key being absent or its value None.  With an email, and at
    most one row for the social identity in the table, it returns; the
    table then holds exactly one row for the identity, with that email;
    the rows of other identities are as they were; and the row is created
    when there was none and saved only when the address on record
    differs from the new one. *)
Theorem store_email_upsert (backend : Backend) (social : UserSocialAuth.t)
    (details : gmap string value) (w : world) :
  (fst (store_email backend social details w) = Raise (MissingEmail backend)
   <-> details !! "email" = None \/ details !! "email" = Some VNone)
  /\ forall email : pystr,
       details !! "email" = Some (VStr email) ->
       (length (List.filter (for_social social) (verifiedemail w)) <= 1)%nat ->
       fst (store_email backend social details w) = Return tt
       /\ List.filter (for_social social)
            (verifiedemail (snd (store_email backend social details w)))
          = [ {| VerifiedEmail.social_id := UserSocialAuth.id social;
                 VerifiedEmail.email := email |} ]
       /\ List.filter (not_for_social social)
            (verifiedemail (snd (store_email backend social details w)))
          = List.filter (not_for_social social) (verifiedemail w)
       /\ log (snd (store_email backend social details w))
          = log w ++ store_email_writes social email (verifiedemail w).
Proof.
  split.
  - destruct (details !! "email") as [[| email] |] eqn:Hemail.
    + unfold store_email. rewrite Hemail. cbn. split; auto.
    + split; [| intros [H | H]; discriminate].
      unfold store_email, mbind, M_bind, VerifiedEmail_get_or_create.
      rewrite Hemail. cbv zeta.
      destruct (objects_get _ (verifiedemail w)) as [[j r] | e] eqn:Hget.
      * destruct (negb _); discriminate.
      * destruct (objects_get_raises _ _ _ Hget) as [-> | ->];
          [destruct (negb _) |]; discriminate.
    + unfold store_email. rewrite Hemail. cbn. split; auto.
  - intros email Hemail Hlen.
    pose proof (select_filter (for_social social) 0 (verifiedemail w)) as Hsel.
    unfold store_email_writes, stored_email, not_for_social.
    destruct (select (for_social social) 0 (verifiedemail w))
      as [| [j r] [| other found]] eqn:Hfound.
    + (* no row yet *)
      rewrite (store_email_created backend social details email w Hemail Hfound).
      cbn [map] in Hsel. rewrite <- Hsel. cbn [fst snd app].
      split; [reflexivity |].
      destruct (pystr_eqb [] email) eqn:Hsame.
      * apply pystr_eqb_eq in Hsame. subst email.
        rewrite decide_True by reflexivity.
        cbn [verifiedemail log logged with_verifiedemail].
        rewrite !List.filter_app, <- Hsel. cbn [List.filter].
        rewrite for_social_new. cbn [negb app].
        rewrite !app_nil_r. repeat split; reflexivity.
      * assert (Hdiff : [] <> email).
        { intros E. apply pystr_eqb_eq in E. congruence. }
        rewrite decide_False by exact Hdiff.
        cbn [verifiedemail log logged with_verifiedemail].
        rewrite insert_app_r_alt by lia. rewrite Nat.sub_diag.
        cbn [insert list_insert]. unfold VerifiedEmail.set_email.
        cbn [VerifiedEmail.social_id].
        rewrite !List.filter_app, <- Hsel. cbn [List.filter].
        rewrite for_social_new. cbn [negb app].
        rewrite !app_nil_r, <- app_assoc. repeat split; reflexivity.
    + (* one row *)
      rewrite (store_email_found backend social details email w j r
                 Hemail Hfound).
      destruct (select_single _ _ _ _ _ Hfound)
        as (before & after & Htable & Hj & Hb & Ha & Hr).
      cbn [map snd] in Hsel. rewrite <- Hsel. cbn [fst snd app].
      split; [reflexivity |].
      destruct (pystr_eqb (VerifiedEmail.email r) email) eqn:Hsame.
      * apply pystr_eqb_eq in Hsame.
        rewrite decide_True by exact Hsame.
        rewrite <- Hsel, app_nil_r.
        rewrite <- (for_social_row social r email Hr).
        unfold VerifiedEmail.set_email. rewrite <- Hsame.
        destruct r; repeat split; reflexivity.
      * assert (Hdiff : VerifiedEmail.email r <> email).
        { intros E. apply pystr_eqb_eq in E. congruence. }
        rewrite decide_False by exact Hdiff.
        cbn [verifiedemail log logged with_verifiedemail].
        rewrite (for_social_row social r email Hr).
        rewrite Htable, Hj. cbn [Nat.add].
        rewrite insert_app_r_alt by lia. rewrite Nat.sub_diag.
        cbn [insert list_insert].
        destruct (filter_around (for_social social) before after _
                    Hb Ha (for_social_new social email)) as [-> ->].
        destruct (filter_around (for_social social) before after r Hb Ha Hr)
          as [_ ->].
        repeat split; reflexivity.
    + (* the table holds the identity twice *)
      cbn [map] in Hsel. rewrite <- Hsel in Hlen. cbn in Hlen. lia.
Qed.

Lemma store_email_upsert_witness :
  fst (store_email github_backend alice_github
         {[ "email" := VStr (str "new@example.org") ]} linked_world)
  = Return tt
  /\ List.filter (for_social alice_github)
       (verifiedemail
          (snd (store_email github_backend alice_github
                  {[ "email" := VStr (str "new@example.org") ]} linked_world)))
     = [ {| VerifiedEmail.social_id := 1;
            VerifiedEmail.email := str "new@example.org" |} ].
Proof.
  destruct (store_email_upsert github_backend alice_github
              {[ "email" := VStr (str "new@example.org") ]} linked_world)
    as [_ H].
  destruct (H (str "new@example.org") (lookup_singleton_eq _ _))
    as (Hret & Hrow & _).
  - cbn. lia.
  - split; [exact Hret | exact Hrow].
Defined.

(** ** [user_full_name] *)

Lemma truthy_nonempty (s : pystr) : truthy (VStr s) = nonempty s.
Proof. destruct s; reflexivity. Qed.

Lemma truncate_take (s : pystr) :
  (if (30 <? length s)%nat then take 30 s else s) = take 30 s.
Proof.
  destruct (Nat.ltb_spec 30 (length s)); [reflexivity |].
  symmetry. apply take_ge. lia.
Qed.

Lemma strip_nil : strip [] = [].
Proof. reflexivity. Qed.

(** The tail of the step, from the name it has derived. *)
Lemma user_full_name_finish (u : User.t) (w : world) (name : pystr) :
  (let full_name := if (30 <? length name)%nat then take 30 name else name in
   if truthy (VStr full_name)
      && negb (pystr_eqb full_name (User.first_name u))
   then
     (let u' := User.set_first_name u full_name in
      emit (UserChanged u') ≫= fun _ => mret (Some u'))
   else mret (Some u)) w
  = full_name_outcome (take 30 name) u w.
Proof.
  cbv zeta. rewrite truncate_take, truthy_nonempty. unfold full_name_outcome.
  destruct (nonempty (take 30 name)
            && negb (pystr_eqb (take 30 name) (User.first_name u)));
    reflexivity.
Qed.

(** C8, as the code has it: for a bound user and name fields that hold
    text, the derived name is the trimmed [fullname] when that is not
    empty, and else first name, blank and last name when the first name is
    not empty and not part of the last name, the first name alone when it
    is part of the last name, and the last name when the first name is
    empty; it is trimmed once more and cut to 30 characters; the first
    name of the user is replaced by it, and the user marked as changed,
    only when it is not empty and differs from the stored one. *)
Theorem user_full_name_derived (details : gmap string value) (u : User.t)
    (w : world) (fullname first last : option pystr) :
  text_field details "fullname" fullname ->
  text_field details "first_name" first ->
  text_field details "last_name" last ->
  user_full_name details (Some u) w
  = full_name_outcome
      (derived_name (default [] fullname) (default [] first)
         (default [] last)) u w.
Proof.
  unfold text_field. intros Hfull Hfirst Hlast.
  unfold derived_name, preferred_name.
  rewrite <- user_full_name_finish.
  unfold user_full_name, combined_name, get_default, contains_key,
    mbind, M_bind, lift, value_strip.
  rewrite Hfull, Hfirst, Hlast.
  assert (Hget : match VStr <$> fullname with
                 | Some v => v
                 | None => VStr []
                 end = VStr (default [] fullname))
    by (destruct fullname; reflexivity).
  rewrite Hget. clear Hget. rewrite truthy_nonempty.
  destruct (nonempty (strip (default [] fullname))) eqn:Hexplicit.
  - reflexivity.
  - assert (Hnil : strip (default [] fullname) = [])
      by (destruct (strip (default [] fullname)); [reflexivity | discriminate]).
    rewrite Hnil.
    destruct first as [[| c f] |], last as [l |];
      cbn -[Nat.ltb take strip contains str];
      try destruct (contains (c :: f) l);
      try destruct (contains (c :: f) []);
      cbn -[Nat.ltb take strip contains str];
      reflexivity.
Qed.

Lemma user_full_name_derived_witness :
  text_field {[ "first_name" := VStr (str "Alice") ]} "fullname" None
  /\ text_field {[ "first_name" := VStr (str "Alice") ]} "first_name"
       (Some (str "Alice"))
  /\ text_field {[ "first_name" := VStr (str "Alice") ]} "last_name" None
  /\ user_full_name {[ "first_name" := VStr (str "Alice") ]} (Some alice)
       empty_world
     = full_name_outcome (derived_name [] (str "Alice") []) alice empty_world.
Proof.
  assert (H1 : text_field {[ "first_name" := VStr (str "Alice") ]}
                 "fullname" None) by reflexivity.
  assert (H2 : text_field {[ "first_name" := VStr (str "Alice") ]}
                 "first_name" (Some (str "Alice"))) by reflexivity.
  assert (H3 : text_field {[ "first_name" := VStr (str "Alice") ]}
                 "last_name" None) by reflexivity.
  split; [exact H1 |]. split; [exact H2 |]. split; [exact H3 |].
  exact (user_full_name_derived _ alice empty_world None (Some (str "Alice"))
           None H1 H2 H3).
Defined.

(** C8, as the specification words it, fails: with a first name and no
    last name the blank that joins them is trimmed away again, so the
    stored name is the first name and not the first name and a blank. *)
Lemma user_full_name_trims_combination :
  user_full_name {[ "first_name" := VStr (str "Alice") ]} (Some alice)
    empty_world
  <> full_name_outcome (derived_name_spec [] (str "Alice") []) alice
       empty_world.
Proof. intros H. vm_compute in H. discriminate H. Qed.

Example user_full_name_first_only :
  fst (user_full_name {[ "first_name" := VStr (str "Alice") ]} (Some alice)
         empty_world)
  = Return (Some (User.set_first_name alice (str "Alice")))
  /\ derived_name_spec [] (str "Alice") [] = str "Alice ".
Proof. split; vm_compute; reflexivity. Qed.

(** A provider that puts the whole name into the last name. *)
Example user_full_name_whole_name_last :
  derived_name [] (str "Ada") (str "Ada Lovelace") = str "Ada"
  /\ derived_name [] (str "Ada") (str "Lovelace") = str "Ada Lovelace"
  /\ derived_name (str "  Ada L. ") (str "x") (str "y") = str "Ada L.".
Proof. repeat split; vm_compute; reflexivity. Qed.

(** A field that holds None makes the step fail. *)
Example user_full_name_none_field :
  fst (user_full_name {[ "fullname" := VNone ]} (Some alice) empty_world)
  = Raise AttributeError.
Proof. vm_compute. reflexivity. Qed.

Example get_github_email_examples :
  get_github_email (fun _ => with_primary) (str "token")
  = Some (str "main@example.org")
  /\ get_github_email (fun _ => two_verified) (str "token")
     = Some (str "new@example.org")
  /\ primary_else_first_verified two_verified = Some (str "old@example.org").
Proof. repeat split; vm_compute; reflexivity. Qed.

(** Two rows for one identity make [get_or_create] fail. *)
Example store_email_duplicate_rows :
  fst (store_email github_backend alice_github
         {[ "email" := VStr (str "new@example.org") ]}
         (with_verifiedemail linked_world
            (verifiedemail linked_world ++ verifiedemail linked_world)))
  = Raise MultipleObjectsReturned.
Proof. vm_compute. reflexivity. Qed.

(** The primary email moves to the address that is left. *)
Example adjust_primary_mail_moves :
  fst (adjust_primary_mail [] (User.set_email alice (str "gone@example.org"))
         linked_world)
  = Return alice.
Proof. vm_compute. reflexivity. Qed.


(** * Further properties of the module *)

(** ** More on [slugify_username] *)

(** The two outcomes of the function, with the patterns resolved. *)
Lemma slugify_username_cases (nfkd : pystr -> pystr) (py : python)
    (value : pystr) :
  slugify_username nfkd py value
  = if Re.matches py USERNAME_MATCHER (to_ascii nfkd value)
    then to_ascii nfkd value
    else collapse_runs py
           (strip (List.filter (kept_char py) (to_ascii nfkd value))).
Proof.
  unfold slugify_username.
  destruct (Re.matches py USERNAME_MATCHER (to_ascii nfkd value));
    [reflexivity |].
  now rewrite sub_cleanup, sub_strip.
Qed.

Lemma fallback_username_chars (py : python) (v : pystr) :
  forallb username_char
    (collapse_runs py (strip (List.filter (kept_char py) v))) = true.
Proof.
  apply collapse_runs_username. intros c Hc.
  apply strip_by_In, filter_In in Hc. tauto.
Qed.

(** The result is empty or a username the pattern accepts. *)
Theorem slugify_username_valid (nfkd : pystr -> pystr) (py : python)
    (value : pystr) :
  slugify_username nfkd py value = []
  \/ Re.matches py USERNAME_MATCHER (slugify_username nfkd py value) = true.
Proof.
  rewrite slugify_username_cases.
  destruct (Re.matches py USERNAME_MATCHER (to_ascii nfkd value)) eqn:Hm.
  - right. exact Hm.
  - pose proof (fallback_username_chars py (to_ascii nfkd value)) as Hall.
    destruct (collapse_runs py _) as [| c out]; [left; reflexivity |].
    right. apply matches_username_chars; [discriminate | exact Hall].
Qed.

(** The result is ASCII, whatever the input holds. *)
Theorem slugify_username_ascii (nfkd : pystr -> pystr) (py : python)
    (value : pystr) :
  forallb is_ascii (slugify_username nfkd py value) = true.
Proof.
  rewrite slugify_username_cases.
  destruct (Re.matches py USERNAME_MATCHER (to_ascii nfkd value)).
  - apply forallb_filter.
  - pose proof (fallback_username_chars py (to_ascii nfkd value)) as Hall.
    rewrite forallb_forall in *. intros c Hc.
    apply username_char_ascii, Hall, Hc.
Qed.

(** A text of username characters comes back as it is. *)
Theorem slugify_username_keeps_usernames (nfkd : pystr -> pystr)
    (py : python) (value : pystr) :
  (forall s : pystr, forallb is_ascii s = true -> nfkd s = s) ->
  value <> [] -> forallb username_char value = true ->
  slugify_username nfkd py value = value.
Proof.
  intros Hnfkd Hne Hall.
  assert (Hfold : to_ascii nfkd value = value).
  { unfold to_ascii, decode_ascii, encode_ascii_ignore.
    assert (Hascii : forallb is_ascii value = true).
    { rewrite forallb_forall in *. intros c Hc.
      apply username_char_ascii, Hall, Hc. }
    rewrite (Hnfkd value Hascii). apply filter_all, Hascii. }
  rewrite slugify_username_cases, Hfold.
  now rewrite (matches_username_chars py value Hne Hall).
Qed.

Lemma slugify_username_keeps_usernames_witness :
  slugify_username (fun t => t) Py2 (str "john.doe+x@example-1")
  = str "john.doe+x@example-1".
Proof.
  apply (slugify_username_keeps_usernames (fun t => t) Py2).
  - intros s _. reflexivity.
  - discriminate.
  - reflexivity.
Defined.

Lemma collapse_runs_head_plain (py : python) (c : N) (s : pystr) :
  run_char py c = false -> collapse_runs py (c :: s) = c :: collapse_runs py s.
Proof. intros H. cbn [collapse_runs]. now rewrite H. Qed.

Lemma run_char_hyphen (py : python) : run_char py hyphen = true.
Proof. reflexivity. Qed.

Lemma not_run_not_hyphen (py : python) (c : N) :
  run_char py c = false -> (c =? hyphen) = false.
Proof. unfold run_char. intros H. apply orb_false_iff in H. tauto. Qed.

Lemma collapse_runs_run_cons (py : python) (c d : N) (s : pystr) :
  run_char py c = true ->
  collapse_runs py (c :: d :: s)
  = if run_char py d then collapse_runs py (d :: s)
    else hyphen :: collapse_runs py (d :: s).
Proof.
  intros Hc.
  change (collapse_runs py (c :: d :: s))
    with (if run_char py c
          then if run_char py d then collapse_runs py (d :: s)
               else hyphen :: collapse_runs py (d :: s)
          else c :: collapse_runs py (d :: s)).
  now rewrite Hc.
Qed.

Lemma no_double_hyphen_cons (c d : N) (s : pystr) :
  no_double_hyphen (c :: d :: s)
  = negb ((c =? hyphen) && (d =? hyphen)) && no_double_hyphen (d :: s).
Proof. reflexivity. Qed.

Lemma collapse_runs_no_double_hyphen (py : python) (s : pystr) :
  no_double_hyphen (collapse_runs py s) = true.
Proof.
  induction s as [| c s IH]; [reflexivity |].
  destruct (run_char py c) eqn:Hc.
  - destruct s as [| d s]; [cbn; now rewrite Hc |].
    rewrite (collapse_runs_run_cons py c d s Hc).
    destruct (run_char py d) eqn:Hd; [exact IH |].
    rewrite (collapse_runs_head_plain py d s Hd) in *.
    rewrite no_double_hyphen_cons, (not_run_not_hyphen py d Hd), andb_false_r.
    exact IH.
  - rewrite (collapse_runs_head_plain py c s Hc).
    destruct (collapse_runs py s) as [| d out] eqn:Hout; [reflexivity |].
    rewrite no_double_hyphen_cons, (not_run_not_hyphen py c Hc).
    exact IH.
Qed.

(** Unless the input is returned as it is, hyphens and blanks have been
    merged: the result has no two hyphens in a row. *)
Theorem slugify_username_merges_hyphens (nfkd : pystr -> pystr)
    (py : python) (value : pystr) :
  Re.matches py USERNAME_MATCHER (to_ascii nfkd value) = false ->
  no_double_hyphen (slugify_username nfkd py value) = true.
Proof.
  intros Hm. rewrite slugify_username_cases, Hm.
  apply collapse_runs_no_double_hyphen.
Qed.

Lemma slugify_username_merges_hyphens_witness :
  no_double_hyphen (slugify_username (fun t => t) Py3 (str "a - - b!")) = true.
Proof.
  apply (slugify_username_merges_hyphens (fun t => t) Py3). reflexivity.
Defined.

Lemma lstrip_by_all (P : N -> bool) (s : pystr) :
  forallb P s = true -> lstrip_by P s = [].
Proof.
  induction s as [| c s IH]; [reflexivity |].
  cbn [forallb lstrip_by]. intros H. apply andb_true_iff in H.
  destruct H as [-> H]. apply IH, H.
Qed.

Lemma lstrip_by_keeps (P : N -> bool) (s : pystr) (c : N) :
  In c s -> P c = false -> In c (lstrip_by P s).
Proof.
  induction s as [| d s IH]; [easy |].
  intros Hin Hc. cbn [lstrip_by]. destruct (P d) eqn:Hd; [| exact Hin].
  destruct Hin as [-> | Hin]; [congruence |]. apply IH; assumption.
Qed.

Lemma strip_by_keeps (P : N -> bool) (s : pystr) (c : N) :
  In c s -> P c = false -> In c (strip_by P s).
Proof.
  intros Hin Hc. unfold strip_by.
  apply in_rev. rewrite rev_involutive.
  apply lstrip_by_keeps; [| exact Hc].
  apply in_rev. rewrite rev_involutive.
  apply lstrip_by_keeps; assumption.
Qed.

Lemma strip_by_all (P : N -> bool) (s : pystr) :
  forallb P s = true -> strip_by P s = [].
Proof.
  intros H. unfold strip_by. now rewrite (lstrip_by_all P s H).
Qed.

Lemma collapse_runs_nil (py : python) (s : pystr) :
  collapse_runs py s = [] -> s = [].
Proof.
  induction s as [| c s IH]; [reflexivity |].
  destruct (run_char py c) eqn:Hc.
  - destruct s as [| d s]; [cbn; rewrite Hc; discriminate |].
    rewrite (collapse_runs_run_cons py c d s Hc).
    destruct (run_char py d); [| discriminate].
    intros H. apply IH in H. discriminate.
  - rewrite (collapse_runs_head_plain py c s Hc). discriminate.
Qed.

Lemma username_char_kept (py : python) (c : N) :
  username_char c = true -> kept_char py c = true.
Proof.
  unfold username_char, kept_char.
  destruct (Re.word c), (Re.space py c), (c =? dot), (c =? at_sign),
    (c =? plus_sign), (c =? hyphen); simpl; congruence.
Qed.

Lemma kept_not_username_space (py : python) (c : N) :
  kept_char py c = true -> username_char c = false -> py_isspace c = true.
Proof.
  intros Hk Hu. apply (isspace_of_space py).
  unfold username_char, kept_char in *.
  destruct (Re.word c), (Re.space py c), (c =? dot), (c =? at_sign),
    (c =? plus_sign), (c =? hyphen); simpl in *; congruence.
Qed.

Lemma matches_has_username_char (py : python) (v : pystr) :
  Re.matches py USERNAME_MATCHER v = true ->
  exists c, In c v /\ username_char c = true.
Proof.
  intros H. apply matches_username_iff in H.
  destruct H as (body & Hne & Hall & Hshape).
  destruct body as [| c body]; [congruence |].
  cbn [forallb] in Hall. apply andb_true_iff in Hall.
  exists c. split; [| tauto].
  destruct Hshape as [-> | ->]; left; reflexivity.
Qed.

(** The result is empty exactly when no ASCII character of the normalized
    input is a username character. *)
Theorem slugify_username_empty (nfkd : pystr -> pystr) (py : python)
    (value : pystr) :
  slugify_username nfkd py value = []
  <-> forall c, In c (to_ascii nfkd value) -> username_char c = false.
Proof.
  rewrite slugify_username_cases.
  set (v := to_ascii nfkd value).
  destruct (Re.matches py USERNAME_MATCHER v) eqn:Hm.
  - destruct (matches_has_username_char py v Hm) as (c & Hin & Hc).
    split.
    + intros ->. destruct Hin.
    + intros H. rewrite (H c Hin) in Hc. discriminate.
  - split.
    + intros Hnil c Hin. apply collapse_runs_nil in Hnil.
      destruct (username_char c) eqn:Hc; [| reflexivity].
      exfalso.
      assert (Hkeep : In c (strip (List.filter (kept_char py) v))).
      { apply strip_by_keeps.
        - apply filter_In. split; [exact Hin |].
          apply username_char_kept, Hc.
        - apply range_not_isspace, username_char_range, Hc. }
      rewrite Hnil in Hkeep. destruct Hkeep.
    + intros H. unfold strip. rewrite strip_by_all; [reflexivity |].
      apply forallb_forall. intros c Hc. apply filter_In in Hc.
      destruct Hc as [Hin Hk].
      apply (kept_not_username_space py); [exact Hk | apply H, Hin].
Qed.

(** ** Python 2 and Python 3 *)






Lemma slugify_username_empty_witness :
  slugify_username (fun t => t) Py3 (str "?! ") = [].
Proof.
  apply (slugify_username_empty (fun t => t) Py3).
  intros c Hc. cbn in Hc.
  repeat (destruct Hc as [<- | Hc]; [reflexivity |]). destruct Hc.
Defined.

(** ** More on [get_github_email] and [require_email] *)

Lemma github_email_loop_some (email : option pystr) (data : list email_entry)
    (address : pystr) :
  github_email_loop email data = Some address ->
  email = Some address
  \/ exists e, In e data /\ entry_verified e = true
               /\ entry_email e = address.
Proof.
  revert email. induction data as [| entry data IH]; intros email H;
    [left; exact H |].
  cbn [github_email_loop] in H.
  destruct (entry_verified entry) eqn:Hv; cbn [negb] in H.
  - destruct (entry_primary entry).
    + injection H as <-. right. exists entry.
      split; [left; reflexivity | split; [exact Hv | reflexivity]].
    + destruct (IH _ H) as [Heq | (e & Hin & He & Ha)].
      * injection Heq as <-. right. exists entry.
        split; [left; reflexivity | split; [exact Hv | reflexivity]].
      * right. exists e. split; [right; exact Hin | split; assumption].
  - destruct (IH _ H) as [Heq | (e & Hin & He & Ha)]; [left; exact Heq |].
    right. exists e. split; [right; exact Hin | split; assumption].
Qed.

Lemma github_email_loop_none (email : option pystr)
    (data : list email_entry) :
  github_email_loop email data = None
  <-> email = None /\ forall e, In e data -> entry_verified e = false.
Proof.
  revert email. induction data as [| entry data IH]; intros email.
  - cbn. split; [intros ->; split; [reflexivity | easy] | tauto].
  - cbn [github_email_loop].
    destruct (entry_verified entry) eqn:Hv; cbn [negb].
    + destruct (entry_primary entry).
      * split; [discriminate |]. intros [_ H].
        rewrite (H entry) in Hv by (left; reflexivity). discriminate.
      * rewrite IH. split; [intros [H _]; discriminate |]. intros [_ H].
        rewrite (H entry) in Hv by (left; reflexivity). discriminate.
    + rewrite IH. split; intros [He H]; (split; [exact He |]).
      * intros e [<- | Hin]; [exact Hv | apply H, Hin].
      * intros e Hin. apply H. right. exact Hin.
Qed.

(** An address that is not verified is never chosen, and an address is
    chosen whenever one is verified: the result is None exactly when no
    entry is verified, and otherwise the address of a verified entry. *)
Theorem get_github_email_verified (user_emails : pystr -> list email_entry)
    (access_token : pystr) :
  (get_github_email user_emails access_token = None
   <-> forall e, In e (user_emails access_token) -> entry_verified e = false)
  /\ forall address,
       get_github_email user_emails access_token = Some address ->
       exists e, In e (user_emails access_token)
                 /\ entry_verified e = true /\ entry_email e = address.
Proof.
  unfold get_github_email. split.
  - rewrite github_email_loop_none. tauto.
  - intros address H.
    destruct (github_email_loop_some _ _ _ H) as [Hnone | Hsome];
      [discriminate | exact Hsome].
Qed.

Lemma get_github_email_verified_witness :
  exists e, In e two_verified /\ entry_verified e = true
            /\ entry_email e = str "new@example.org".
Proof.
  apply (get_github_email_verified (fun _ => two_verified) (str "token")).
  reflexivity.
Defined.

(** What the step hands back, next to the dictionary it leaves. *)
Lemma require_email_result (user_emails : pystr -> list email_entry)
    (backend : Backend) (details : gmap string value) (access_token : pystr)
    (user : option User.t) (is_new : bool) :
  snd (require_email user_emails backend details access_token user is_new)
  = if has_email user then
      if String.eqb (name backend) "email" then Update_is_new true
      else Nothing
    else if is_new
            && negb (truthy
                       (get_default
                          (fst (require_email user_emails backend details
                                  access_token user is_new))
                          "email" VNone))
    then Redirect "register"
    else Nothing.
Proof.
  rewrite require_email_details. unfold require_email, has_email.
  set (updated := if String.eqb (name backend) "github" then _ else _).
  destruct user as [u |]; [rewrite truthy_nonempty;
                           destruct (nonempty (User.email u)) |];
    try (destruct (String.eqb (name backend) "email"); reflexivity);
    destruct (is_new && negb (truthy (get_default updated "email" VNone)));
    reflexivity.
Qed.

(** The flow is sent to the registration form exactly when the attempt is
    new, the bound user, if any, has no address, and the details hold no
    address after the github lookup. *)
Theorem require_email_redirects (user_emails : pystr -> list email_entry)
    (backend : Backend) (details : gmap string value) (access_token : pystr)
    (user : option User.t) (is_new : bool) :
  snd (require_email user_emails backend details access_token user is_new)
  = Redirect "register"
  <-> has_email user = false /\ is_new = true
      /\ truthy (get_default
                   (fst (require_email user_emails backend details
                           access_token user is_new))
                   "email" VNone) = false.
Proof.
  rewrite require_email_result.
  destruct (has_email user).
  - split; [| intros [H _]; discriminate].
    destruct (String.eqb (name backend) "email"); discriminate.
  - destruct is_new; cbn [andb].
    + destruct (truthy _); cbn [negb]; split;
        try discriminate; try tauto.
      intros (_ & _ & H). discriminate.
    + split; [discriminate | intros (_ & H & _); discriminate].
Qed.

(** A github login of which the endpoint reports a verified address goes
    on without the registration form, with a verified address among the
    details, provided the addresses reported are not empty. *)
Theorem require_email_github_proceeds
    (user_emails : pystr -> list email_entry) (backend : Backend)
    (details : gmap string value) (access_token : pystr)
    (user : option User.t) (is_new : bool) :
  name backend = "github" ->
  (exists e, In e (user_emails access_token) /\ entry_verified e = true) ->
  (forall e, In e (user_emails access_token) -> entry_email e <> []) ->
  snd (require_email user_emails backend details access_token user is_new)
  <> Redirect "register"
  /\ exists e, In e (user_emails access_token) /\ entry_verified e = true
       /\ fst (require_email user_emails backend details access_token user
                 is_new) !! "email"
          = Some (VStr (entry_email e)).
Proof.
  intros Hname (e0 & Hin0 & Hv0) Hfilled.
  destruct (get_github_email user_emails access_token) as [address |] eqn:Hget.
  2: { unfold get_github_email in Hget. apply github_email_loop_none in Hget.
       destruct Hget as [_ Hnone]. rewrite (Hnone e0 Hin0) in Hv0.
       discriminate. }
  unfold get_github_email in Hget.
  destruct (github_email_loop_some _ _ _ Hget) as [Hno | (e & Hin & Hv & He)];
    [discriminate |].
  assert (Hdetails :
            fst (require_email user_emails backend details access_token user
                   is_new)
            = <["email" := VStr address]> details).
  { rewrite require_email_details, Hname. unfold get_github_email.
    now rewrite Hget. }
  split.
  - rewrite require_email_result, Hdetails. unfold get_default.
    rewrite lookup_insert_eq, truthy_nonempty.
    subst address. pose proof (Hfilled e Hin) as Hne.
    destruct (entry_email e); [congruence |]. cbn [nonempty negb].
    rewrite andb_false_r.
    destruct (has_email user); [| discriminate].
    destruct (String.eqb (name backend) "email"); discriminate.
  - exists e. split; [exact Hin |]. split; [exact Hv |].
    rewrite Hdetails, lookup_insert_eq. now rewrite He.
Qed.

Lemma require_email_github_proceeds_witness :
  snd (require_email (fun _ => with_primary) github_backend ∅ (str "token")
         None true)
  <> Redirect "register".
Proof.
  apply (require_email_github_proceeds (fun _ => with_primary) github_backend
           ∅ (str "token") None true).
  - reflexivity.
  - eexists. split; [left; reflexivity | reflexivity].
  - intros e He. cbn in He.
    repeat (destruct He as [<- | He]; [discriminate |]). destruct He.
Defined.

(** The step writes no key but [email], and nothing at all for a backend
    other than github. *)
Theorem require_email_other_keys (user_emails : pystr -> list email_entry)
    (backend : Backend) (details : gmap string value) (access_token : pystr)
    (user : option User.t) (is_new : bool) (k : string) :
  k <> "email" \/ name backend <> "github" ->
  fst (require_email user_emails backend details access_token user is_new)
    !! k
  = details !! k.
Proof.
  intros H. rewrite require_email_details.
  destruct (String.eqb_spec (name backend) "github") as [Hname | Hname];
    [| reflexivity].
  destruct H as [Hk | Hk]; [| congruence].
  destruct (get_github_email user_emails access_token); [| reflexivity].
  apply lookup_insert_ne. congruence.
Qed.

Lemma require_email_other_keys_witness :
  fst (require_email (fun _ => with_primary) github_backend
         {[ "username" := VStr (str "alice") ]} (str "token") None true)
    !! "username"
  = Some (VStr (str "alice")).
Proof.
  rewrite (require_email_other_keys (fun _ => with_primary) github_backend
             {[ "username" := VStr (str "alice") ]} (str "token") None true
             "username").
  - apply lookup_singleton_eq.
  - left. discriminate.
Defined.

(** ** More on [store_email] *)

Lemma select_nil {A : Type} (P : A -> bool) (i : nat) (rows : list A) :
  List.filter P rows = [] -> select P i rows = [].
Proof.
  intros H. pose proof (select_filter P i rows) as Hsel. rewrite H in Hsel.
  destruct (select P i rows); [reflexivity | discriminate].
Qed.

Lemma select_around {A : Type} (P : A -> bool) (i : nat)
    (before after : list A) (r : A) :
  List.filter P before = [] -> List.filter P after = [] -> P r = true ->
  select P i (before ++ r :: after) = [(i + length before, r)%nat].
Proof.
  revert i. induction before as [| x before IH]; intros i Hb Ha Hr.
  - cbn [app select length]. rewrite Hr, (select_nil P (S i) after Ha).
    now rewrite Nat.add_0_r.
  - cbn [List.filter] in Hb. destruct (P x) eqn:Hx; [discriminate |].
    cbn [app select length]. rewrite Hx, (IH (S i) Hb Ha Hr).
    f_equal. f_equal. lia.
Qed.

Lemma store_email_many (backend : Backend) (social : UserSocialAuth.t)
    (details : gmap string value) (email : pystr) (w : world)
    (a b : nat * VerifiedEmail.t) (found : list (nat * VerifiedEmail.t)) :
  details !! "email" = Some (VStr email) ->
  select (for_social social) 0 (verifiedemail w) = a :: b :: found ->
  store_email backend social details w = (Raise MultipleObjectsReturned, w).
Proof.
  intros Hemail Hsel.
  unfold store_email, mbind, M_bind, VerifiedEmail_get_or_create, objects_get.
  rewrite Hemail. cbv zeta.
  change (fun r : VerifiedEmail.t =>
            (VerifiedEmail.social_id r =? UserSocialAuth.id social)%Z)
    with (for_social social).
  rewrite Hsel. reflexivity.
Qed.

(** The table the step leaves when the identity has at most one row: the
    row of the identity, with the new address, at the place of the old row
    or at the end. *)
Lemma store_email_final_table (backend : Backend)
    (social : UserSocialAuth.t) (details : gmap string value)
    (email : pystr) (w : world) :
  details !! "email" = Some (VStr email) ->
  (length (List.filter (for_social social) (verifiedemail w)) <= 1)%nat ->
  exists before after,
    verifiedemail (snd (store_email backend social details w))
    = before
      ++ {| VerifiedEmail.social_id := UserSocialAuth.id social;
            VerifiedEmail.email := email |} :: after
    /\ List.filter (for_social social) before = []
    /\ List.filter (for_social social) after = []
    /\ fst (store_email backend social details w) = Return tt.
Proof.
  intros Hemail Hlen.
  pose proof (select_filter (for_social social) 0 (verifiedemail w)) as Hsel.
  destruct (select (for_social social) 0 (verifiedemail w))
    as [| [j r] [| other found]] eqn:Hfound.
  - rewrite (store_email_created backend social details email w Hemail Hfound).
    exists (verifiedemail w), []. cbn [fst snd map] in *.
    split; [| split; [now rewrite <- Hsel | split; reflexivity]].
    destruct (pystr_eqb [] email) eqn:Hsame.
    + apply pystr_eqb_eq in Hsame. subst email. reflexivity.
    + cbn [verifiedemail log logged with_verifiedemail].
      rewrite insert_app_r_alt by lia. rewrite Nat.sub_diag. reflexivity.
  - rewrite (store_email_found backend social details email w j r Hemail Hfound).
    destruct (select_single _ _ _ _ _ Hfound)
      as (before & after & Htable & Hj & Hb & Ha & Hr).
    exists before, after. cbn [fst snd].
    split; [| split; [exact Hb | split; [exact Ha | reflexivity]]].
    rewrite <- (for_social_row social r email Hr).
    destruct (pystr_eqb (VerifiedEmail.email r) email) eqn:Hsame.
    + apply pystr_eqb_eq in Hsame. rewrite Htable. subst email.
      destruct r; reflexivity.
    + cbn [verifiedemail log logged with_verifiedemail].
      rewrite Htable, Hj. cbn [Nat.add].
      rewrite insert_app_r_alt by lia. rewrite Nat.sub_diag. reflexivity.
  - cbn [map] in Hsel. rewrite <- Hsel in Hlen. cbn in Hlen. lia.
Qed.

(** Storing the same address again writes nothing: the second run returns
    and leaves the store as the first run left it. *)
Theorem store_email_twice (backend : Backend) (social : UserSocialAuth.t)
    (details : gmap string value) (email : pystr) (w : world) :
  details !! "email" = Some (VStr email) ->
  (length (List.filter (for_social social) (verifiedemail w)) <= 1)%nat ->
  store_email backend social details
    (snd (store_email backend social details w))
  = (Return tt, snd (store_email backend social details w)).
Proof.
  intros Hemail Hlen.
  destruct (store_email_final_table backend social details email w Hemail Hlen)
    as (before & after & Htable & Hb & Ha & _).
  pose proof (select_around (for_social social) 0 before after _ Hb Ha
                (for_social_new social email)) as Hsel.
  rewrite <- Htable in Hsel.
  rewrite (store_email_found backend social details email _ _ _ Hemail Hsel).
  cbn [VerifiedEmail.email].
  assert (pystr_eqb email email = true) as -> by now apply pystr_eqb_eq.
  reflexivity.
Qed.

Lemma store_email_twice_witness :
  store_email github_backend alice_github
    {[ "email" := VStr (str "new@example.org") ]}
    (snd (store_email github_backend alice_github
            {[ "email" := VStr (str "new@example.org") ]} linked_world))
  = (Return tt,
     snd (store_email github_backend alice_github
            {[ "email" := VStr (str "new@example.org") ]} linked_world)).
Proof.
  apply (store_email_twice github_backend alice_github _
           (str "new@example.org") linked_world).
  - apply lookup_singleton_eq.
  - cbn. lia.
Defined.

(** Whatever the details and the table hold, and whether the step returns
    or raises, it leaves users, social identities and codes alone, only
    adds to the log, never drops a verified-email row and never touches
    the rows of other identities. *)
Theorem store_email_frame (backend : Backend) (social : UserSocialAuth.t)
    (details : gmap string value) (w : world) :
  auth_user (snd (store_email backend social details w)) = auth_user w
  /\ usersocialauth (snd (store_email backend social details w))
     = usersocialauth w
  /\ codes (snd (store_email backend social details w)) = codes w
  /\ (exists written,
        log (snd (store_email backend social details w)) = log w ++ written)
  /\ (length (verifiedemail w)
      <= length (verifiedemail (snd (store_email backend social details w))))%nat
  /\ List.filter (not_for_social social)
       (verifiedemail (snd (store_email backend social details w)))
     = List.filter (not_for_social social) (verifiedemail w).
Proof.
  assert (Hsame : forall r, store_email backend social details w = (r, w) ->
            auth_user (snd (store_email backend social details w)) = auth_user w
            /\ usersocialauth (snd (store_email backend social details w))
               = usersocialauth w
            /\ codes (snd (store_email backend social details w)) = codes w
            /\ (exists written,
                  log (snd (store_email backend social details w))
                  = log w ++ written)
            /\ (length (verifiedemail w)
                <= length (verifiedemail
                             (snd (store_email backend social details w))))%nat
            /\ List.filter (not_for_social social)
                 (verifiedemail (snd (store_email backend social details w)))
               = List.filter (not_for_social social) (verifiedemail w)).
  { intros r ->. cbn [snd].
    split; [reflexivity |]. split; [reflexivity |]. split; [reflexivity |].
    split; [exists []; now rewrite app_nil_r |].
    split; [lia | reflexivity]. }
  destruct (details !! "email") as [[| email] |] eqn:Hemail;
    try (apply (Hsame (Raise (AuthMissingParameter backend "email")));
         unfold store_email; rewrite Hemail; reflexivity).
  pose proof (select_filter (for_social social) 0 (verifiedemail w)) as Hsel.
  destruct (select (for_social social) 0 (verifiedemail w))
    as [| [j r] [| other found]] eqn:Hfound.
  - rewrite (store_email_created backend social details email w Hemail Hfound).
    cbn [snd]. unfold not_for_social.
    destruct (pystr_eqb [] email);
      cbn [auth_user usersocialauth codes verifiedemail log logged
           with_verifiedemail].
    + split; [reflexivity |]. split; [reflexivity |]. split; [reflexivity |].
      split; [eexists; reflexivity |]. split.
      * rewrite length_app. lia.
      * rewrite List.filter_app. cbn [List.filter].
        rewrite for_social_new. cbn [negb]. apply app_nil_r.
    + rewrite insert_app_r_alt by lia. rewrite Nat.sub_diag.
      cbn [insert list_insert].
      split; [reflexivity |]. split; [reflexivity |]. split; [reflexivity |].
      split; [eexists; rewrite <- app_assoc; reflexivity |]. split.
      * rewrite length_app. lia.
      * rewrite List.filter_app. cbn [List.filter].
        unfold VerifiedEmail.set_email. cbn [VerifiedEmail.social_id].
        rewrite for_social_new. cbn [negb]. apply app_nil_r.
  - pose proof (store_email_found backend social details email w j r
                  Hemail Hfound) as Hrun.
    destruct (pystr_eqb (VerifiedEmail.email r) email);
      [apply (Hsame (Return tt)); exact Hrun |].
    rewrite Hrun. cbn [snd]. unfold not_for_social.
    cbn [auth_user usersocialauth codes verifiedemail log logged
         with_verifiedemail].
    destruct (select_single _ _ _ _ _ Hfound)
      as (before & after & Htable & Hj & Hb & Ha & Hr).
    split; [reflexivity |]. split; [reflexivity |]. split; [reflexivity |].
    split; [eexists; reflexivity |]. split.
    + rewrite length_insert. lia.
    + rewrite (for_social_row social r email Hr).
      rewrite Htable, Hj. cbn [Nat.add].
      rewrite insert_app_r_alt by lia. rewrite Nat.sub_diag.
      cbn [insert list_insert].
      destruct (filter_around (for_social social) before after _
                  Hb Ha (for_social_new social email)) as [_ ->].
      destruct (filter_around (for_social social) before after r Hb Ha Hr)
        as [_ ->].
      reflexivity.
  - apply (Hsame (Raise MultipleObjectsReturned)).
    apply (store_email_many backend social details email w _ _ _ Hemail Hfound).
Qed.

(** ** More on [revoke_mail_code] *)

(** The step without a usable address or without a code in the request. *)
Lemma revoke_mail_code_idle (data : gmap string pystr)
    (details : gmap string value) (email : value) (w : world) :
  details !! "email" = Some email ->
  truthy email && contains_key data "verification_code" = false ->
  revoke_mail_code data details w = (Return tt, w).
Proof.
  intros Hemail Hidle.
  unfold revoke_mail_code, mbind, M_bind, lift, getitem.
  rewrite Hemail, Hidle. reflexivity.
Qed.

(** The step with an address and a code, by the rows it finds. *)
Lemma revoke_mail_code_run (data : gmap string pystr)
    (details : gmap string value) (email : value) (code : pystr) (w : world) :
  details !! "email" = Some email -> truthy email = true ->
  data !! "verification_code" = Some code ->
  revoke_mail_code data details w
  = match select (revocable code email) 0 (codes w) with
    | [] => (Return tt, w)
    | [(i, row)] =>
        (Return tt, logged (with_codes w (delete i (codes w))) (CodeDeleted row))
    | _ :: _ :: _ => (Raise MultipleObjectsReturned, w)
    end.
Proof.
  intros Hemail Htruthy Hcode.
  unfold revoke_mail_code, mbind, M_bind, lift, getitem, contains_key.
  rewrite Hemail, Htruthy, Hcode.
  rewrite bool_decide_eq_true_2 by (eexists; reflexivity).
  cbn [andb]. unfold except_DoesNotExist, Code_objects_get, objects_get.
  change (fun c : Code.t =>
            pystr_eqb (Code.code c) code
            && value_eqb (VStr (Code.email c)) email && Code.verified c)
    with (revocable code email).
  destruct (select (revocable code email) 0 (codes w))
    as [| [i row] [| other found]]; reflexivity.
Qed.

Lemma revocable_verified (code : pystr) (email : value) (c : Code.t) :
  revocable code email c = true -> unverified c = false.
Proof.
  unfold revocable, unverified. intros H.
  apply andb_true_iff in H. destruct H as [_ ->]. reflexivity.
Qed.

(** Whatever the request and the details hold, the step leaves users,
    identities and verified emails alone; it adds no code, removes at most
    one, and never removes a code that is not verified. *)
Theorem revoke_mail_code_frame (data : gmap string pystr)
    (details : gmap string value) (w : world) :
  auth_user (snd (revoke_mail_code data details w)) = auth_user w
  /\ usersocialauth (snd (revoke_mail_code data details w)) = usersocialauth w
  /\ verifiedemail (snd (revoke_mail_code data details w)) = verifiedemail w
  /\ (forall c, In c (codes (snd (revoke_mail_code data details w))) ->
                In c (codes w))
  /\ (length (codes w)
      <= S (length (codes (snd (revoke_mail_code data details w)))))%nat
  /\ List.filter unverified (codes (snd (revoke_mail_code data details w)))
     = List.filter unverified (codes w).
Proof.
  assert (Hsame : forall r, revoke_mail_code data details w = (r, w) ->
            auth_user (snd (revoke_mail_code data details w)) = auth_user w
            /\ usersocialauth (snd (revoke_mail_code data details w))
               = usersocialauth w
            /\ verifiedemail (snd (revoke_mail_code data details w))
               = verifiedemail w
            /\ (forall c, In c (codes (snd (revoke_mail_code data details w)))
                          -> In c (codes w))
            /\ (length (codes w)
                <= S (length (codes (snd (revoke_mail_code data details w)))))%nat
            /\ List.filter unverified
                 (codes (snd (revoke_mail_code data details w)))
               = List.filter unverified (codes w)).
  { intros r ->. cbn [snd].
    split; [reflexivity |]. split; [reflexivity |]. split; [reflexivity |].
    split; [tauto |]. split; [lia | reflexivity]. }
  destruct (details !! "email") as [email |] eqn:Hemail.
  2: { apply (Hsame (Raise (KeyError "email"))).
       unfold revoke_mail_code, mbind, M_bind, lift, getitem.
       rewrite Hemail. reflexivity. }
  destruct (truthy email && contains_key data "verification_code") eqn:Hgo.
  2: { apply (Hsame (Return tt)).
       apply (revoke_mail_code_idle data details email w Hemail Hgo). }
  apply andb_true_iff in Hgo. destruct Hgo as [Htruthy Hkey].
  unfold contains_key in Hkey. apply bool_decide_eq_true in Hkey.
  destruct Hkey as [code Hcode].
  pose proof (revoke_mail_code_run data details email code w Hemail Htruthy
                Hcode) as Hrun.
  destruct (select (revocable code email) 0 (codes w))
    as [| [i row] [| other found]] eqn:Hfound.
  - apply (Hsame (Return tt)), Hrun.
  - rewrite Hrun. cbn [snd auth_user usersocialauth verifiedemail codes
                       logged with_codes].
    destruct (select_single _ _ _ _ _ Hfound)
      as (before & after & Htable & Hi & Hb & Ha & Hr).
    rewrite Htable, Hi. cbn [Nat.add]. rewrite delete_middle.
    split; [reflexivity |]. split; [reflexivity |]. split; [reflexivity |].
    split; [| split].
    + intros c Hc. apply in_app_iff in Hc. apply in_app_iff.
      destruct Hc as [Hc | Hc]; [left | right; right]; exact Hc.
    + rewrite !length_app. cbn [length]. lia.
    + rewrite !List.filter_app. cbn [List.filter].
      now rewrite (revocable_verified code email row Hr).
  - apply (Hsame (Raise MultipleObjectsReturned)), Hrun.
Qed.

(** When the step returns for a request with a code and details with an
    address, no verified code for that address is left to be presented
    again. *)
Theorem revoke_mail_code_revokes (data : gmap string pystr)
    (details : gmap string value) (email : value) (code : pystr) (w : world) :
  details !! "email" = Some email -> truthy email = true ->
  data !! "verification_code" = Some code ->
  fst (revoke_mail_code data details w) = Return tt ->
  List.filter (revocable code email)
    (codes (snd (revoke_mail_code data details w))) = [].
Proof.
  intros Hemail Htruthy Hcode.
  rewrite (revoke_mail_code_run data details email code w Hemail Htruthy Hcode).
  pose proof (select_filter (revocable code email) 0 (codes w)) as Hsel.
  destruct (select (revocable code email) 0 (codes w))
    as [| [i row] [| other found]] eqn:Hfound; cbn [fst snd].
  - intros _. now rewrite <- Hsel.
  - intros _. cbn [codes logged with_codes].
    destruct (select_single _ _ _ _ _ Hfound)
      as (before & after & Htable & Hi & Hb & Ha & Hr).
    rewrite Htable, Hi. cbn [Nat.add]. rewrite delete_middle.
    rewrite List.filter_app, Hb, Ha. reflexivity.
  - discriminate.
Qed.

Lemma revoke_mail_code_revokes_witness :
  List.filter (revocable (str "abc") (VStr (str "alice@example.org")))
    (codes (snd (revoke_mail_code {[ "verification_code" := str "abc" ]}
                   {[ "email" := VStr (str "alice@example.org") ]}
                   code_world)))
  = [].
Proof.
  apply (revoke_mail_code_revokes {[ "verification_code" := str "abc" ]}
           {[ "email" := VStr (str "alice@example.org") ]}
           (VStr (str "alice@example.org")) (str "abc") code_world).
  - apply lookup_singleton_eq.
  - reflexivity.
  - apply lookup_singleton_eq.
  - reflexivity.
Defined.

Example revoke_mail_code_keeps_pending :
  codes (snd (revoke_mail_code {[ "verification_code" := str "abc" ]}
                {[ "email" := VStr (str "alice@example.org") ]} code_world))
  = [ {| Code.code := str "xyz"; Code.email := str "alice@example.org";
         Code.verified := false |} ].
Proof. vm_compute. reflexivity. Qed.

(** ** More on [adjust_primary_mail] *)

(** Whenever the step returns, the primary email of the user it returns is
    one of the verified emails that remain; the user is otherwise the
    same, and the verified emails are as they were. *)
Theorem adjust_primary_mail_backed (entries : list UserSocialAuth.t)
    (user user' : User.t) (w : world) :
  fst (adjust_primary_mail entries user w) = Return user' ->
  (exists v,
     In v (remaining_verified entries user'
             (snd (adjust_primary_mail entries user w)))
     /\ VerifiedEmail.email v = User.email user')
  /\ User.pk user' = User.pk user
  /\ User.username user' = User.username user
  /\ User.first_name user' = User.first_name user
  /\ verifiedemail (snd (adjust_primary_mail entries user w))
     = verifiedemail w.
Proof.
  unfold adjust_primary_mail.
  destruct (existsb _ (remaining_verified entries user w)) eqn:Hbacked.
  - cbn [fst snd]. intros H. injection H as <-.
    apply existsb_exists in Hbacked. destruct Hbacked as (v & Hin & Heq).
    apply pystr_eqb_eq in Heq.
    split; [exists v; split; assumption |]. repeat split; reflexivity.
  - destruct (remaining_verified entries user w) as [| first rest] eqn:Hrem;
      [discriminate |].
    cbn. intros H. injection H as <-.
    split; [| repeat split; reflexivity].
    exists first. split; [| reflexivity].
    change (remaining_verified entries
              (User.set_email user (VerifiedEmail.email first)) _)
      with (remaining_verified entries user w).
    rewrite Hrem. left. reflexivity.
Qed.

Lemma adjust_primary_mail_backed_witness :
  exists v,
    In v (remaining_verified []
            alice
            (snd (adjust_primary_mail []
                    (User.set_email alice (str "gone@example.org"))
                    linked_world)))
    /\ VerifiedEmail.email v = User.email alice.
Proof.
  apply (adjust_primary_mail_backed []
           (User.set_email alice (str "gone@example.org")) alice linked_world).
  reflexivity.
Defined.

(** ** More on [user_full_name] *)

(** The name the step derives depends on the details alone; the user and
    the store only decide whether it is written. *)
Lemma user_full_name_shape (details : gmap string value) :
  exists derived : result pystr,
    forall (u : User.t) (w : world),
      user_full_name details (Some u) w
      = match derived with
        | Return name => full_name_outcome (take 30 name) u w
        | Raise e => (Raise e, w)
        end.
Proof.
  unfold user_full_name, mbind, M_bind, lift.
  destruct (value_strip (get_default details "fullname" (VStr [])))
    as [full | e]; [| exists (Raise e); reflexivity].
  destruct (negb (truthy (VStr full))
            && (contains_key details "first_name"
                || contains_key details "last_name")).
  - destruct (combined_name details) as [v | e];
      [| exists (Raise e); reflexivity].
    destruct (value_strip v) as [name | e];
      [| exists (Raise e); reflexivity].
    exists (Return name). intros u w. apply user_full_name_finish.
  - exists (Return (strip full)). intros u w. cbn [value_strip].
    apply user_full_name_finish.
Qed.

(** When the step returns, the user is unchanged, or the first name is
    new, not empty and at most 30 characters long; no other field of the
    user changes. *)
Theorem user_full_name_bounded (details : gmap string value)
    (u u' : User.t) (w : world) :
  fst (user_full_name details (Some u) w) = Return (Some u') ->
  (u' = u
   \/ (User.first_name u' <> [] /\ User.first_name u' <> User.first_name u
       /\ (length (User.first_name u') <= 30)%nat))
  /\ User.pk u' = User.pk u /\ User.username u' = User.username u
  /\ User.email u' = User.email u
  /\ User.is_authenticated u' = User.is_authenticated u.
Proof.
  destruct (user_full_name_shape details) as [[name | e] Hrun];
    rewrite Hrun; [| discriminate].
  unfold full_name_outcome.
  destruct (nonempty (take 30 name)
            && negb (pystr_eqb (take 30 name) (User.first_name u))) eqn:Hnew;
    cbn [fst]; intros H; injection H as <-.
  - apply andb_true_iff in Hnew. destruct Hnew as [Hne Hdiff].
    split; [| repeat split; reflexivity].
    right. cbn [User.first_name User.set_first_name]. split; [| split].
    + intros E. rewrite E in Hne. discriminate.
    + intros E. apply pystr_eqb_eq in E. rewrite E in Hdiff. discriminate.
    + rewrite length_take. lia.
  - split; [left; reflexivity | repeat split; reflexivity].
Qed.

(** Running the step again on what it returned changes nothing more. *)
Theorem user_full_name_twice (details : gmap string value) (u u' : User.t)
    (w w' : world) :
  user_full_name details (Some u) w = (Return (Some u'), w') ->
  user_full_name details (Some u') w' = (Return (Some u'), w').
Proof.
  destruct (user_full_name_shape details) as [[name | e] Hrun];
    rewrite !Hrun; [| discriminate].
  unfold full_name_outcome.
  destruct (nonempty (take 30 name)
            && negb (pystr_eqb (take 30 name) (User.first_name u))) eqn:Hnew;
    intros H; injection H as <- <-.
  - cbn [User.first_name User.set_first_name].
    assert (pystr_eqb (take 30 name) (take 30 name) = true) as ->
      by now apply pystr_eqb_eq.
    rewrite andb_false_r. reflexivity.
  - rewrite Hnew. reflexivity.
Qed.

Lemma user_full_name_bounded_witness :
  (length (str "Augusta Ada King, Countess of ") <= 30)%nat.
Proof.
  destruct (user_full_name_bounded
              {[ "fullname"
                 := VStr (str "Augusta Ada King, Countess of Lovelace") ]}
              alice
              (User.set_first_name alice (str "Augusta Ada King, Countess of "))
              empty_world)
    as [[Hsame | (_ & _ & Hlen)] _].
  - reflexivity.
  - discriminate Hsame.
  - exact Hlen.
Defined.

Lemma user_full_name_twice_witness :
  user_full_name {[ "first_name" := VStr (str "Alice") ]}
    (Some (User.set_first_name alice (str "Alice")))
    (logged empty_world (UserChanged (User.set_first_name alice (str "Alice"))))
  = (Return (Some (User.set_first_name alice (str "Alice"))),
     logged empty_world (UserChanged (User.set_first_name alice (str "Alice")))).
Proof.
  apply (user_full_name_twice {[ "first_name" := VStr (str "Alice") ]} alice
           _ empty_world).
  reflexivity.
Defined.

(** ** [store_params] and [ensure_valid] *)

Lemma option_Z_eqb_refl (a : option Z) : option_Z_eqb a a = true.
Proof. destruct a; [apply Z.eqb_refl | reflexivity]. Qed.

(** A flow that comes back with the user it started with, before the
    stored expiry time, passes the guard, for an activation and for a
    password reset. *)
Theorem store_params_ensure_valid (deadline now : Q) (session : Session)
    (backend : Backend) (user : option User.t) :
  (now <= inject_Z (weblate_expires (store_params deadline session user)))%Q ->
  ensure_valid now backend user
    (registering_user (store_params deadline session user))
    (weblate_action (store_params deadline session user))
    (weblate_expires (store_params deadline session user))
  = Return tt.
Proof.
  intros Hnow. unfold ensure_valid.
  assert (Hgo : Qlt_bool
                  (inject_Z (weblate_expires (store_params deadline session user)))
                  now = false).
  { unfold Qlt_bool.
    destruct (inject_Z _ ?= now)%Q eqn:E; try reflexivity.
    apply Qlt_alt in E. destruct (Qlt_not_le _ _ E Hnow). }
  rewrite Hgo. cbn [weblate_action registering_user store_params].
  destruct (sval_truthy _); [reflexivity |].
  cbn [String.eqb]. rewrite option_Z_eqb_refl. reflexivity.
Qed.

Lemma store_params_ensure_valid_witness :
  ensure_valid (1000 # 1) email_backend (Some alice)
    (registering_user
       (store_params (4600 # 1) {| session_key := None; session_data := ∅ |}
          (Some alice)))
    (weblate_action
       (store_params (4600 # 1) {| session_key := None; session_data := ∅ |}
          (Some alice)))
    (weblate_expires
       (store_params (4600 # 1) {| session_key := None; session_data := ∅ |}
          (Some alice)))
  = Return tt.
Proof.
  apply (store_params_ensure_valid (4600 # 1) (1000 # 1)).
  discriminate.
Defined.

Lemma py_int_le (x : Q) : (0 <= x)%Q -> (inject_Z (py_int x) <= x)%Q.
Proof.
  unfold Qle, py_int, inject_Z. cbn [Qnum Qden]. intros H.
  rewrite Z.mul_1_r in *. rewrite Z.mul_0_l in H || idtac.
  rewrite Z.mul_comm. apply Z.mul_quot_le; lia.
Qed.

(** The stored expiry time is never later than the time the step computed:
    once that time has passed the guard refuses the link, whoever the user
    and whatever the action. *)
Theorem store_params_expires (deadline now : Q) (session : Session)
    (backend : Backend) (user user' : option User.t)
    (registered : option Z) (action : string) :
  (0 <= deadline)%Q -> (deadline < now)%Q ->
  ensure_valid now backend user' registered action
    (weblate_expires (store_params deadline session user))
  = Raise (LinkExpired backend).
Proof.
  intros Hpos Hlate. unfold ensure_valid, Qlt_bool.
  cbn [weblate_expires store_params].
  assert (H : (inject_Z (py_int deadline) < now)%Q)
    by (apply (Qle_lt_trans _ deadline); [apply py_int_le, Hpos | exact Hlate]).
  apply Qlt_alt in H. unfold Qcompare in *. rewrite H. reflexivity.
Qed.

Lemma store_params_expires_witness :
  ensure_valid (4601 # 1) email_backend (Some alice) (Some 7%Z) "reset"
    (weblate_expires
       (store_params (9201 # 2) {| session_key := None; session_data := ∅ |}
          (Some alice)))
  = Raise (LinkExpired email_backend).
Proof.
  apply (store_params_expires (9201 # 2) (4601 # 1));
    [discriminate | reflexivity].
Defined.

(** ** [verify_open] *)

Lemma sval_eqb_bound (request_user : option Z) (session : Session) :
  sval_eqb (pk_value request_user)
    (session_get session "social_auth_user" SNone) = true
  <-> session_bound request_user session.
Proof.
  unfold session_bound.
  destruct request_user as [n |],
    (session_get session "social_auth_user" SNone) as [| b | m | t];
    cbn; try (split; [discriminate | intros H; discriminate H]);
    try (split; reflexivity).
  - rewrite Z.eqb_eq. split; [intros -> | intros H; injection H as <-];
      reflexivity.
  - rewrite Z.eqb_eq. split; [intros -> | intros H; injection H as <-];
      reflexivity.
Qed.

(** The step lets an attempt pass exactly when a user is bound or
    registration is open, the bound user is not the demo account of a demo
    server, and the session names the user of the request. *)
Theorem verify_open_passes (settings : Settings) (backend : Backend)
    (request_user : option Z) (session : Session) (user : option User.t) :
  verify_open settings backend request_user session user = Return tt
  <-> (is_Some user \/ REGISTRATION_OPEN settings = true)
      /\ (forall u, user = Some u -> DEMO_SERVER settings = true ->
                    User.username u <> str "demo")
      /\ session_bound request_user session.
Proof.
  rewrite <- sval_eqb_bound. unfold verify_open.
  destruct user as [u |].
  - cbn [bool_decide negb andb].
    rewrite bool_decide_eq_true_2 by (eexists; reflexivity). cbn [negb andb].
    destruct (DEMO_SERVER settings); cbn [andb].
    + destruct (pystr_eqb (User.username u) (str "demo")) eqn:Hdemo.
      * apply pystr_eqb_eq in Hdemo.
        split; [discriminate |]. intros (_ & H & _).
        destruct (H u eq_refl eq_refl Hdemo).
      * assert (Hne : User.username u <> str "demo").
        { intros E. apply pystr_eqb_eq in E. congruence. }
        destruct (sval_eqb _ _); cbn [negb].
        -- split; [intros _ | reflexivity].
           split; [left; eexists; reflexivity |]. split; [| reflexivity].
           intros u' Hu' _. injection Hu' as <-. exact Hne.
        -- split; [discriminate | intros (_ & _ & H); discriminate].
    + destruct (sval_eqb _ _); cbn [negb].
      * split; [intros _ | reflexivity].
        split; [left; eexists; reflexivity |]. split; [| reflexivity].
        intros u' _ Hdemo. discriminate.
      * split; [discriminate | intros (_ & _ & H); discriminate].
  - rewrite bool_decide_eq_false_2 by (intros [x Hx]; discriminate).
    cbn [negb andb].
    destruct (REGISTRATION_OPEN settings); cbn [negb].
    + destruct (sval_eqb _ _); cbn [negb].
      * split; [intros _ | reflexivity].
        split; [right; reflexivity |]. split; [| reflexivity].
        intros u' Hu'. discriminate.
      * split; [discriminate | intros (_ & _ & H); discriminate].
    + split; [discriminate |]. intros ([[x Hx] | H] & _); discriminate.
Qed.

Lemma verify_open_passes_witness :
  verify_open demo_settings github_backend (Some 7%Z) alice_session
    (Some alice)
  = Return tt.
Proof.
  apply (verify_open_passes demo_settings github_backend (Some 7%Z)
           alice_session (Some alice)).
  split; [left; eexists; reflexivity |]. split.
  - intros u Hu _. injection Hu as <-. discriminate.
  - reflexivity.
Defined.

(** ** [cleanup_next] *)

Lemma cleanup_next_target (is_safe_url : sval -> result bool)
    (session session' : Session) :
  cleanup_next is_safe_url session = Return session' ->
  sval_truthy (session_get session' "next" SNone) = true ->
  is_safe_url (session_get session' "next" SNone) = Return true.
Proof.
  unfold cleanup_next.
  destruct (sval_truthy (session_get session "next" SNone)) eqn:Htruthy.
  - destruct (is_safe_url (session_get session "next" SNone))
      as [[|] | e] eqn:Hsafe; cbn [negb]; intros H; try discriminate;
      injection H as <-.
    + intros _. exact Hsafe.
    + unfold session_get, session_set. cbn [session_data].
      rewrite lookup_insert_eq. discriminate.
  - intros H. injection H as <-. rewrite Htruthy. discriminate.
Qed.

(** When the step returns, a target that is left in the session has passed
    the safety check; the session key and the other entries are as they
    were. *)
Theorem cleanup_next_safe (is_safe_url : sval -> result bool)
    (session session' : Session) :
  cleanup_next is_safe_url session = Return session' ->
  session_key session' = session_key session
  /\ (forall k, k <> "next" ->
                session_data session' !! k = session_data session !! k)
  /\ (sval_truthy (session_get session' "next" SNone) = true ->
      is_safe_url (session_get session' "next" SNone) = Return true).
Proof.
  unfold cleanup_next.
  destruct (sval_truthy (session_get session "next" SNone)) eqn:Htruthy.
  - destruct (is_safe_url (session_get session "next" SNone))
      as [[|] | e] eqn:Hsafe; cbn [negb]; intros H; try discriminate;
      injection H as <-.
    + split; [reflexivity |]. split; [reflexivity |]. intros _. exact Hsafe.
    + split; [reflexivity |]. split.
      * intros k Hk. cbn. apply lookup_insert_ne. congruence.
      * unfold session_get, session_set. cbn [session_data].
        rewrite lookup_insert_eq. discriminate.
  - intros H. injection H as <-.
    split; [reflexivity |]. split; [reflexivity |].
    rewrite Htruthy. discriminate.
Qed.

(** A session the step has cleaned passes it unchanged. *)
Theorem cleanup_next_twice (is_safe_url : sval -> result bool)
    (session session' : Session) :
  cleanup_next is_safe_url session = Return session' ->
  cleanup_next is_safe_url session' = Return session'.
Proof.
  intros H.
  pose proof (cleanup_next_target is_safe_url session session' H) as Hsafe.
  unfold cleanup_next.
  destruct (sval_truthy (session_get session' "next" SNone)) eqn:Htruthy;
    [| reflexivity].
  rewrite (Hsafe eq_refl). reflexivity.
Qed.

Lemma cleanup_next_safe_witness :
  session_data (session_set evil_session "next" SNone) !! "next" = Some SNone
  /\ (sval_truthy (session_get (session_set evil_session "next" SNone)
                     "next" SNone) = true ->
      local_only (session_get (session_set evil_session "next" SNone)
                    "next" SNone) = Return true).
Proof.
  split; [reflexivity |].
  apply (cleanup_next_safe local_only evil_session
           (session_set evil_session "next" SNone)).
  reflexivity.
Defined.

Lemma cleanup_next_twice_witness :
  cleanup_next local_only (session_set evil_session "next" SNone)
  = Return (session_set evil_session "next" SNone).
Proof.
  apply (cleanup_next_twice local_only evil_session). reflexivity.
Defined.

(** ** [send_validation] *)

Lemma send_validation_after (reverse_complete : string -> pystr)
    (new_session_key : pystr) (backend : Backend)
    (backend_partial_token : option pystr) (code : Code.t)
    (partial_token : option pystr) (session : Session) (outbox : list mail) :
  snd (fst (send_validation reverse_complete new_session_key backend
              backend_partial_token code partial_token session outbox))
  = {| session_key :=
         match session_key session with
         | Some (c :: key) => Some (c :: key)
         | _ => Some new_session_key
         end;
       session_data :=
         delete "password_reset"
           (<["registration-email-sent" := SBool true]>
              (session_data session)) |}.
Proof.
  unfold send_validation, session_pop.
  destruct (session_key session) as [[| c key] |] eqn:Ekey;
    cbn [negb nonempty];
    (destruct partial_token as [token |];
     [| destruct backend_partial_token as [token |]]);
    cbn [fst snd session_set session_create session_key session_data];
    rewrite ?Ekey; reflexivity.
Qed.

(** Whether or not the step finds a token, it leaves the session with a
    key, with the mark that the mail went out and without the mark of a
    password reset; a key that was there is kept, and so are all other
    entries. *)
Theorem send_validation_session (reverse_complete : string -> pystr)
    (new_session_key : pystr) (backend : Backend)
    (backend_partial_token : option pystr) (code : Code.t)
    (partial_token : option pystr) (session : Session) (outbox : list mail) :
  let after :=
    snd (fst (send_validation reverse_complete new_session_key backend
                backend_partial_token code partial_token session outbox)) in
  is_Some (session_key after)
  /\ (forall key, session_key session = Some key -> key <> [] ->
                  session_key after = Some key)
  /\ session_data after !! "registration-email-sent" = Some (SBool true)
  /\ session_data after !! "password_reset" = None
  /\ forall k, k <> "registration-email-sent" -> k <> "password_reset" ->
               session_data after !! k = session_data session !! k.
Proof.
  cbv zeta. rewrite send_validation_after. cbn [session_key session_data].
  split.
  { destruct (session_key session) as [[| c key] |]; eexists; reflexivity. }
  split.
  { intros key Hkey Hne. rewrite Hkey.
    destruct key; [congruence | reflexivity]. }
  split.
  { rewrite lookup_delete_ne by discriminate. apply lookup_insert_eq. }
  split; [apply lookup_delete_eq |].
  intros k Hk1 Hk2. rewrite lookup_delete_ne by congruence.
  apply lookup_insert_ne. congruence.
Qed.

Lemma send_validation_session_witness :
  session_key
    (snd (fst (send_validation (fun _ => str "/accounts/complete/email/")
                 (str "n3w") email_backend None sample_code
                 (Some (str "t0ken"))
                 {| session_key := Some (str "k3y"); session_data := ∅ |} [])))
  = Some (str "k3y").
Proof.
  apply (send_validation_session (fun _ => str "/accounts/complete/email/")
           (str "n3w") email_backend None sample_code (Some (str "t0ken"))
           {| session_key := Some (str "k3y"); session_data := ∅ |} []).
  - reflexivity.
  - discriminate.
Defined.

(** The mark of a password reset is used up by the mail: parameters stored
    from the session after [send_validation] name an activation, reset
    flow or not. *)
Theorem send_validation_then_store_params
    (reverse_complete : string -> pystr) (new_session_key : pystr)
    (backend : Backend) (backend_partial_token : option pystr)
    (code : Code.t) (partial_token : option pystr) (session : Session)
    (outbox : list mail) (deadline : Q) (user : option User.t) :
  weblate_action
    (store_params deadline
       (snd (fst (send_validation reverse_complete new_session_key backend
                    backend_partial_token code partial_token session outbox)))
       user)
  = "activation".
Proof.
  rewrite send_validation_after.
  unfold store_params, session_get. cbn [weblate_action session_data].
  rewrite lookup_delete_eq. reflexivity.
Qed.

(** With a token at hand the step sends one message, to the address of the
    code; it is the reset message exactly when the session marked a
    password reset, and a token passed to the step goes into the link
    before the one kept on the backend. *)
Theorem send_validation_mail (reverse_complete : string -> pystr)
    (new_session_key : pystr) (backend : Backend)
    (backend_partial_token : option pystr) (code : Code.t)
    (partial_token : option pystr) (session : Session) (outbox : list mail)
    (token : pystr) :
  (partial_token = Some token
   \/ (partial_token = None /\ backend_partial_token = Some token)) ->
  exists template,
    send_validation reverse_complete new_session_key backend
      backend_partial_token code partial_token session outbox
    = (Return tt,
       snd (fst (send_validation reverse_complete new_session_key backend
                   backend_partial_token code partial_token session outbox)),
       outbox
       ++ [ {| mail_to := Code.email code; mail_template := template;
               mail_url :=
                 reverse_complete (name backend) ++ str "?verification_code="
                 ++ Code.code code ++ str "&partial_token=" ++ token |} ])
    /\ (template = "reset"
        <-> sval_truthy (session_get session "password_reset" (SBool false))
            = true)
    /\ (template = "activation"
        <-> sval_truthy (session_get session "password_reset" (SBool false))
            = false).
Proof.
  intros Htoken.
  exists (if sval_truthy (session_get session "password_reset" (SBool false))
          then "reset" else "activation").
  split.
  - unfold send_validation, session_pop.
    assert (Hflag : forall keyed : Session,
              session_data keyed = session_data session ->
              session_get
                (session_set keyed "registration-email-sent" (SBool true))
                "password_reset" (SBool false)
              = session_get session "password_reset" (SBool false)).
    { intros keyed Hdata. unfold session_get, session_set.
      cbn [session_data]. rewrite lookup_insert_ne by discriminate.
      now rewrite Hdata. }
    destruct Htoken as [-> | [-> ->]];
      destruct (negb _); cbn [fst snd]; rewrite Hflag by reflexivity;
      reflexivity.
  - destruct (sval_truthy _); split; split; try reflexivity; discriminate.
Qed.

Lemma send_validation_mail_witness :
  exists template,
    send_validation (fun _ => str "/accounts/complete/email/") (str "n3w")
      email_backend (Some (str "0ld")) sample_code (Some (str "t0ken"))
      reset_session []
    = (Return tt,
       snd (fst (send_validation (fun _ => str "/accounts/complete/email/")
                   (str "n3w") email_backend (Some (str "0ld")) sample_code
                   (Some (str "t0ken")) reset_session [])),
       [] ++ [ {| mail_to := str "alice@example.org";
                  mail_template := template;
                  mail_url :=
                    str "/accounts/complete/email/"
                    ++ str "?verification_code=" ++ str "abc"
                    ++ str "&partial_token=" ++ str "t0ken" |} ])
    /\ (template = "reset"
        <-> sval_truthy (session_get reset_session "password_reset"
                           (SBool false)) = true)
    /\ (template = "activation"
        <-> sval_truthy (session_get reset_session "password_reset"
                           (SBool false)) = false).
Proof.
  apply (send_validation_mail (fun _ => str "/accounts/complete/email/")
           (str "n3w") email_backend (Some (str "0ld")) sample_code
           (Some (str "t0ken")) reset_session [] (str "t0ken")).
  left. reflexivity.
Defined.

(** ** [notify_disconnect] *)

(** Each identity that is unlinked gets one notification, in the order of
    the entries and after those made before; nothing is sent for no
    entries. *)
Theorem notify_disconnect_each (get_auth_name : string -> pystr)
    (backend : Backend) (entries : list UserSocialAuth.t) (user : User.t)
    (sent : list activity) :
  notify_disconnect get_auth_name backend entries user sent
  = sent ++ map (disconnect_activity get_auth_name backend user) entries.
Proof.
  revert sent. induction entries as [| social entries IH]; intros sent.
  - cbn. now rewrite app_nil_r.
  - cbn [notify_disconnect map]. rewrite IH, <- app_assoc. reflexivity.
Qed.

(** ** The username pattern *)



